(** * Bistro Boss server: settlement and analytics

    A shallow embedding of the Express/MongoDB server of [index.js] (and of
    the two sibling revisions of that file where they differ), with the
    properties of its settlement route [POST /payments], its checkout route
    [POST /create-checkout-session] and its two reporting routes
    [GET /admin-stats] and [GET /order-stats].

    Conventions of the embedding.
    - A collection is the list of its documents, in storage order.
    - A handler is a computation over a [World]: the database and the log of
      driver calls made so far.  A rejected promise is an exception of the
      computation, [try { } catch] is [try_catch].
    - The price of a payment record is a JavaScript number, a binary64
      floating-point number: it is embedded as one, with the addition of
      binary64.  The price sent to the checkout and the prices of the menu
      are embedded as exact rationals.
    - What the libraries decide (whether [new ObjectId(s)] throws, what
      [jwt.verify] answers, whether a driver call is rejected) is a parameter:
      a [Driver] for the deterministic part, [Faults] for the failures. *)

From Stdlib Require Import List String Ascii Bool Arith ZArith NArith QArith Qabs Qround DecimalString Lia Permutation.
From Stdlib Require Import PrimFloat FloatOps SpecFloat.
Import ListNotations.
Local Open Scope string_scope.

(** ** JavaScript values and the built-ins the handlers call *)

Module JS.

#[local] Set Warnings "-register-all".

(** A value as [express.json()] leaves it in [req.body], plus [undefined]
    for a property that is absent. *)
Inductive value : Type :=
| Undefined
| Null
| Bool (b : bool)
| Num (q : Q)
| Str (s : string)
| Arr (xs : list value)
| Obj (fields : list (string * value)).

(** [!v] is [negb (truthy v)]: [undefined], [null], [false], [0] and the
    empty string are falsy, every array and object is truthy. *)
Definition truthy (v : value) : bool :=
  match v with
  | Undefined | Null => false
  | Bool b => b
  | Num q => negb (Qeq_bool q 0)
  | Str s => negb (String.eqb s "")
  | Arr _ | Obj _ => true
  end.

(** [Array.isArray(v)] *)
Definition isArray (v : value) : bool :=
  match v with
  | Arr _ => true
  | _ => false
  end.

(** [v.length === 0].  The length of a string is its number of code units;
    every other value read here has no [length], and [undefined === 0] is
    false. *)
Definition length_is_zero (v : value) : bool :=
  match v with
  | Arr xs => Nat.eqb (List.length xs) 0
  | Str s => Nat.eqb (String.length s) 0
  | _ => false
  end.

(** [Math.round(x)]: the integer closest to [x], a tie going towards
    plus infinity.  The argument is an exact rational: where the handlers
    apply it to a product, the rounding of that product to binary64 is not
    part of this function. *)
Definition Math_round (x : Q) : Z := Qfloor (x + (1 # 2)).

(** The first significant decimal digit of an integer [n >= 0]. *)
Fixpoint leading_digit_int (fuel : nat) (n : Z) : Z :=
  match fuel with
  | O => n
  | S fuel' => if (n <? 10)%Z then n else leading_digit_int fuel' (n / 10)%Z
  end.

(** The first significant decimal digit of [0 < x < 1]. *)
Fixpoint leading_digit_frac (fuel : nat) (x : Q) : Z :=
  match fuel with
  | O => 0
  | S fuel' =>
      let y := x * 10 in
      if Qle_bool 1 y then Qfloor y else leading_digit_frac fuel' y
  end.

(** [parseInt(x)] at a number [x]: the number is first printed, then the
    longest prefix of the text that is an integer is read.  Between [1e-6]
    and [1e21] the text is in positional notation and its integer prefix is
    [x] truncated towards zero; outside, the text is in exponent notation
    ([5e-7], [1.5e+21]) and the prefix is its first digit alone.  The
    argument is an exact rational and the text its exact decimal expansion:
    the rounding of a product to binary64 is not part of this function. *)
Definition parseInt (x : Q) : Z :=
  let a := Qabs x in
  let sign := if Qle_bool 0 x then 1%Z else (-1)%Z in
  if Qeq_bool a 0 then 0%Z
  else if Qle_bool (inject_Z (10 ^ 21)) a then
    (sign * leading_digit_int (Z.to_nat (Z.log2 (Qfloor a))) (Qfloor a))%Z
  else if Qle_bool (1 # 1000000) a then
    Z.quot (Qnum x) (Zpos (Qden x))
  else
    (sign * leading_digit_frac (Pos.to_nat (Pos.size (Qden a))) a)%Z.

(** The text of a number, [Number.prototype.toString], is left to the
    caller: only its use as an identifier matters here. *)
Section ToString.
Variable Number_toString : Q -> string.

Definition join_comma (parts : list string) : string :=
  String.concat "," parts.

(** [String(v)].  Inside an array [null] and [undefined] print as the
    empty text. *)
Fixpoint String_ (v : value) : string :=
  match v with
  | Undefined => "undefined"
  | Null => "null"
  | Bool true => "true"
  | Bool false => "false"
  | Num q => Number_toString q
  | Str s => s
  | Arr xs =>
      join_comma
        (map (fun x => match x with
                       | Undefined | Null => ""
                       | _ => String_ x
                       end) xs)
  | Obj _ => "[object Object]"
  end.
End ToString.

(** [s.split(" ")]: the pieces of [s] between single spaces. *)
Fixpoint split_space_aux (s : string) (cur : string) : list string :=
  match s with
  | EmptyString => [cur]
  | String c rest =>
      if Ascii.eqb c " "%char
      then cur :: split_space_aux rest ""
      else split_space_aux rest (cur ++ String c "")
  end.

Definition split_space (s : string) : list string := split_space_aux s "".

End JS.

(** ** Documents and collections of the database [bistroDb] *)

(** An [ObjectId] is a 12-byte value; only its identity matters. *)
Definition ObjectId : Type := N.

(** A document of the menu: [{_id, name, category, price}]. *)
Record MenuItem : Type := {
  menu_id : string;
  menu_name : string;
  menu_category : string;
  menu_price : Q
}.

(** A document of [carts]. *)
Record CartEntry : Type := {
  cart_id : ObjectId;
  cart_email : string;
  cart_menuId : string;
  cart_price : Q
}.

(** A document of [users]; [role] may be absent. *)
Record User : Type := {
  user_email : string;
  user_role : option string
}.

(** The body of [POST /payments], stored as it is.  [cartIds] is kept as the
    raw value: the handler itself tests its shape. *)
Record Payment : Type := {
  userEmail : string;
  price : float;
  cartIds : JS.value;
  menuItems : list string
}.

(** A document of [payments]: the body with the [_id] the driver gave it. *)
Record StoredPayment : Type := {
  payment_id : ObjectId;
  payment_doc : Payment
}.

(** The collections, each under the name it has in the database.  [menus]
    and [menu] are two collections. *)
Record Db : Type := {
  menus : list MenuItem;
  menu : list MenuItem;
  carts : list CartEntry;
  users : list User;
  payments : list StoredPayment
}.

(** The menu collection of a given name; a name the database does not have
    is an empty collection. *)
Definition menu_collection (name : string) (d : Db) : list MenuItem :=
  if String.eqb name "menus" then menus d
  else if String.eqb name "menu" then menu d
  else [].

(** ** Libraries: deterministic part and failures *)

(** The payload of a verified token. *)
Record Decoded : Type := { decoded_email : string }.

Record Driver : Type := {
  (** [new ObjectId(v)]; [None] when the constructor throws. *)
  ObjectId_new : JS.value -> option ObjectId;
  (** The text of a number. *)
  Number_toString : Q -> string;
  (** [jwt.verify(token, secret)] at the token read from the header;
      [None] when it reports an error. *)
  jwt_verify : option string -> option Decoded;
  (** [stripe.paymentIntents.create({amount, ...})]: the client secret, or
      [None] when the promise is rejected. *)
  paymentIntents_create : Z -> option string;
  (** [collection.estimatedDocumentCount()] from the number of documents. *)
  estimatedDocumentCount : nat -> nat
}.

(** Which of the two writes of a settlement the store rejects. *)
Record Faults : Type := {
  insertOne_rejects : bool;
  deleteMany_rejects : bool
}.

Definition no_faults : Faults :=
  {| insertOne_rejects := false; deleteMany_rejects := false |}.

(** ** Handlers as computations *)

Inductive Exn : Type :=
| TypeError
| BSONError (input : JS.value)
| MongoError
| StripeError.

(** The calls that leave the process, in the order they are made. *)
Inductive Event : Type :=
| Ev_insertOne (doc : Payment) (acknowledged : bool)
| Ev_deleteMany (ids : list ObjectId) (acknowledged : bool)
| Ev_paymentIntents_create (amount : Z).

Record World : Type := {
  db : Db;
  log : list Event
}.

Inductive Outcome (A : Type) : Type :=
| Return (a : A)
| Throw (e : Exn).
Arguments Return {A} a.
Arguments Throw {A} e.

Definition M (A : Type) : Type := World -> Outcome A * World.

Definition ret {A : Type} (a : A) : M A := fun w => (Return a, w).

Definition throw {A : Type} (e : Exn) : M A := fun w => (Throw e, w).

Definition bind {A B : Type} (m : M A) (k : A -> M B) : M B :=
  fun w =>
    match m w with
    | (Return a, w') => k a w'
    | (Throw e, w') => (Throw e, w')
    end.

(** [try { m } catch (error) { h error }]: what [m] did to the world
    before it threw stays done. *)
Definition try_catch {A : Type} (m : M A) (h : Exn -> M A) : M A :=
  fun w =>
    match m w with
    | (Return a, w') => (Return a, w')
    | (Throw e, w') => h e w'
    end.

Notation "x <- m ;; k" := (bind m (fun x => k))
  (at level 61, m at next level, right associativity).

Definition get_db : M Db := fun w => (Return (db w), w).

Definition put_db (d : Db) : M unit :=
  fun w => (Return tt, {| db := d; log := log w |}).

Definition emit (e : Event) : M unit :=
  fun w => (Return tt, {| db := db w; log := log w ++ [e] |}).

Fixpoint mapM {A B : Type} (f : A -> M B) (xs : list A) : M (list B) :=
  match xs with
  | [] => ret []
  | x :: rest =>
      y <- f x ;;
      ys <- mapM f rest ;;
      ret (y :: ys)
  end.

(** [v.map(f)]: a [TypeError] when [v] has no [map]. *)
Definition array_map {B : Type} (v : JS.value) (f : JS.value -> M B) : M (list B) :=
  match v with
  | JS.Arr xs => mapM f xs
  | _ => throw TypeError
  end.

(** [new ObjectId(v)] *)
Definition new_ObjectId (drv : Driver) (v : JS.value) : M ObjectId :=
  match ObjectId_new drv v with
  | Some oid => ret oid
  | None => throw (BSONError v)
  end.

(** [String(v)] *)
Definition JS_String (drv : Driver) (v : JS.value) : string :=
  JS.String_ (Number_toString drv) v.

(** ** The driver calls the handlers make *)

(** The answer of [insertOne]. *)
Record InsertOneResult : Type := {
  insert_acknowledged : bool;
  insertedId : ObjectId
}.

(** The answer of [deleteMany]. *)
Record DeleteResult : Type := {
  delete_acknowledged : bool;
  deletedCount : nat
}.

(** The [_id] the driver gives a document that has none.  That it differs
    from the [_id] of every document of the collection is the guarantee of
    the driver and of the unique index of the store, which are not part of
    the source: it is taken here as given, by the choice of an identifier
    above all those of the collection. *)
Definition fresh_ObjectId (docs : list StoredPayment) : ObjectId :=
  N.succ (fold_right N.max 0%N (map payment_id docs)).

Definition set_payments (d : Db) (ps : list StoredPayment) : Db :=
  {| menus := menus d; menu := menu d; carts := carts d;
     users := users d; payments := ps |}.

Definition set_carts (d : Db) (cs : list CartEntry) : Db :=
  {| menus := menus d; menu := menu d; carts := cs;
     users := users d; payments := payments d |}.

(** [paymentCollection.insertOne(doc)].  A rejected insert stores nothing. *)
Definition paymentCollection_insertOne (flt : Faults) (doc : Payment)
  : M InsertOneResult :=
  d <- get_db ;;
  if insertOne_rejects flt then
    _ <- emit (Ev_insertOne doc false) ;;
    throw MongoError
  else
    let id := fresh_ObjectId (payments d) in
    _ <- put_db (set_payments d
                   (payments d ++ [{| payment_id := id; payment_doc := doc |}])) ;;
    _ <- emit (Ev_insertOne doc true) ;;
    ret {| insert_acknowledged := true; insertedId := id |}.

(** The filter [{_id: {$in: ids}}] at a cart entry. *)
Definition id_in (ids : list ObjectId) (c : CartEntry) : bool :=
  existsb (N.eqb (cart_id c)) ids.

(** [cartCollection.deleteMany({_id: {$in: ids}})].  A rejected delete
    removes nothing. *)
Definition cartCollection_deleteMany (flt : Faults) (ids : list ObjectId)
  : M DeleteResult :=
  d <- get_db ;;
  if deleteMany_rejects flt then
    _ <- emit (Ev_deleteMany ids false) ;;
    throw MongoError
  else
    _ <- put_db (set_carts d (filter (fun c => negb (id_in ids c)) (carts d))) ;;
    _ <- emit (Ev_deleteMany ids true) ;;
    ret {| delete_acknowledged := true;
           deletedCount := List.length (filter (id_in ids) (carts d)) |}.

(** [stripe.paymentIntents.create({amount, currency: "usd", ...})] *)
Definition stripe_paymentIntents_create (drv : Driver) (amount : Z) : M string :=
  _ <- emit (Ev_paymentIntents_create amount) ;;
  match paymentIntents_create drv amount with
  | Some client_secret => ret client_secret
  | None => throw StripeError
  end.

(** ** The aggregation pipeline of [GET /order-stats] *)

(** An element of the answer of [GET /order-stats]. *)
Record CategorySummary : Type := {
  category : string;
  quantity : nat;
  revenue : Q
}.

Module Aggregate.

(** A payment after [$lookup ... as: "menuItems"]: the field now holds menu
    documents. *)
Record Looked : Type := {
  looked_doc : StoredPayment;
  looked_menuItems : list MenuItem
}.

(** A payment after [$unwind: "$menuItems"]: the field holds one menu
    document. *)
Record Unwound : Type := {
  unwound_doc : StoredPayment;
  unwound_menuItems : MenuItem
}.

(** A document after [$group]. *)
Record Group : Type := {
  group_id : string;
  group_quantity : nat;
  group_revenue : Q
}.

(** Whether the array [localField] of a payment holds the [_id] of [m]. *)
Definition references (local : list string) (m : MenuItem) : bool :=
  existsb (String.eqb (menu_id m)) local.

(** [$lookup {from, localField: "menuItems", foreignField: "_id",
    as: "menuItems"}].  With an array as local field, a document of [from]
    matches when its [_id] equals some element of the array; the result
    holds every matching document of [from], each one once. *)
Definition lookup (from : list MenuItem) (docs : list StoredPayment)
  : list Looked :=
  map (fun doc =>
         {| looked_doc := doc;
            looked_menuItems :=
              filter (references (menuItems (payment_doc doc))) from |})
      docs.

(** [$unwind: "$menuItems"]: one document per element of the array; a
    document whose array is empty gives none. *)
Definition unwind (docs : list Looked) : list Unwound :=
  flat_map (fun doc =>
              map (fun m => {| unwound_doc := looked_doc doc;
                               unwound_menuItems := m |})
                  (looked_menuItems doc))
           docs.

(** One step of [$group]: the accumulators [{$sum: 1}] and
    [{$sum: "$menuItems.price"}] of the group of [key] move on, a new
    group starting from zero. *)
Fixpoint group_step (key : string) (amount : Q) (acc : list Group) : list Group :=
  match acc with
  | [] => [{| group_id := key; group_quantity := 0 + 1; group_revenue := 0 + amount |}]
  | g :: rest =>
      if String.eqb (group_id g) key
      then {| group_id := key;
              group_quantity := group_quantity g + 1;
              group_revenue := group_revenue g + amount |} :: rest
      else g :: group_step key amount rest
  end.

(** [$group {_id: "$menuItems.category", quantity: {$sum: 1},
    revenue: {$sum: "$menuItems.price"}}].  The order of the groups is
    the order in which their keys are first met. *)
Definition group (docs : list Unwound) : list Group :=
  fold_left (fun acc doc =>
               group_step (menu_category (unwound_menuItems doc))
                          (menu_price (unwound_menuItems doc)) acc)
            docs [].

(** [$project {_id: 0, category: "$_id", quantity: "$quantity",
    revenue: "$revenue"}] *)
Definition project (docs : list Group) : list CategorySummary :=
  map (fun g => {| category := group_id g;
                   quantity := group_quantity g;
                   revenue := group_revenue g |})
      docs.

End Aggregate.

(** The whole pipeline, at the collection [$lookup] reads from. *)
Definition order_stats_pipeline (from : list MenuItem) (docs : list StoredPayment)
  : list CategorySummary :=
  Aggregate.project
    (Aggregate.group (Aggregate.unwind (Aggregate.lookup from docs))).

(** ** Requests and responses *)

Inductive Body : Type :=
| Body_error (msg : string)
| Body_message (msg : string)
| Body_error_message (msg : string)
| Body_payment (paymentResult : InsertOneResult) (deleteResult : DeleteResult)
| Body_stats (revenue_ : float) (orders_ users_ products_ : nat)
| Body_order_stats (result : list CategorySummary)
| Body_client_secret (clientSecret : string).

Record Response : Type := {
  status : nat;
  body : Body
}.

Record Request (B : Type) : Type := {
  authorization : option string;
  req_body : B
}.
Arguments authorization {B} _.
Arguments req_body {B} _.

Definition respond (code : nat) (b : Body) : M Response :=
  ret {| status := code; body := b |}.

(** ** [index.js] *)

Module Index.

(** [const menuCollection = client.db("bistroDb").collection("menus")] *)
Definition menuCollection (d : Db) : list MenuItem := menu_collection "menus" d.

(** [verifyToken]: the header must be there and carry, after its first
    space, a token that [jwt.verify] accepts; [next] then runs with the
    decoded payload in [req.decoded]. *)
Definition verifyToken {B : Type} (drv : Driver) (req : Request B)
  (next : Decoded -> M Response) : M Response :=
  match authorization req with
  | None | Some "" => respond 401 (Body_error_message "unauthorized access")
  | Some header =>
      let token := nth_error (JS.split_space header) 1 in
      match jwt_verify drv token with
      | None => respond 401 (Body_message "Unauthorized access")
      | Some decoded => next decoded
      end
  end.

(** [user?.role !== "admin"] *)
Definition role_is_not_admin (user : option User) : bool :=
  match user with
  | Some u =>
      match user_role u with
      | Some r => negb (String.eqb r "admin")
      | None => true
      end
  | None => true
  end.

(** [verifyAdmin]: the user of the decoded e-mail must have the role
    ["admin"]. *)
Definition verifyAdmin (decoded : Decoded) (next : M Response) : M Response :=
  d <- get_db ;;
  let user := find (fun u => String.eqb (user_email u) (decoded_email decoded))
                   (users d) in
  if role_is_not_admin user
  then respond 403 (Body_message "Forbidden access")
  else next.

(** The handler of [POST /create-checkout-session]; no [try] around the
    call of the adapter. *)
Definition create_checkout_session (drv : Driver) (price_ : Q) : M Response :=
  let amount := JS.parseInt (price_ * 100) in
  client_secret <- stripe_paymentIntents_create drv amount ;;
  respond 200 (Body_client_secret client_secret).


(** The test that guards the settlement:
    [!payment.cartIds || !Array.isArray(payment.cartIds) ||
     payment.cartIds.length === 0]. *)
Definition invalid_cartIds (payment : Payment) : bool :=
  negb (JS.truthy (cartIds payment))
  || negb (JS.isArray (cartIds payment))
  || JS.length_is_zero (cartIds payment).

(** The handler of [POST /payments]. *)
Definition payments_handler (drv : Driver) (flt : Faults) (payment : Payment)
  : M Response :=
  try_catch
    (if invalid_cartIds payment then
       respond 400 (Body_error "Invalid cartIds: cartIds must be a non-empty array")
     else
       paymentResult <- paymentCollection_insertOne flt payment ;;
       ids <- array_map (cartIds payment)
                (fun id => new_ObjectId drv (JS.Str (JS_String drv id))) ;;
       deleteResult <- cartCollection_deleteMany flt ids ;;
       respond 200 (Body_payment paymentResult deleteResult))
    (fun error =>
       respond 500 (Body_error "An error occurred while processing the payment")).

(** [app.post("/payments", async (req, res) => ...)]: no middleware. *)
Definition post_payments (drv : Driver) (flt : Faults) (req : Request Payment)
  : M Response :=
  payments_handler drv flt (req_body req).

(** The handler of [GET /admin-stats]. *)
Definition admin_stats (drv : Driver) : M Response :=
  d <- get_db ;;
  let users_ := estimatedDocumentCount drv (List.length (users d)) in
  let products := estimatedDocumentCount drv (List.length (menuCollection d)) in
  let orders := estimatedDocumentCount drv (List.length (payments d)) in
  let payments_ := payments d in
  let revenue_ :=
    fold_left (fun total payment =>
                 PrimFloat.add total (price (payment_doc payment)))
              payments_ PrimFloat.zero in
  respond 200 (Body_stats revenue_ orders users_ products).

(** [app.get("/admin-stats", verifyToken, verifyAdmin, ...)] *)
Definition get_admin_stats {B : Type} (drv : Driver) (req : Request B)
  : M Response :=
  verifyToken drv req (fun decoded => verifyAdmin decoded (admin_stats drv)).

(** The handler of [GET /order-stats]: the pipeline runs on [payments] and
    joins the collection named ["menu"]. *)
Definition order_stats : M Response :=
  d <- get_db ;;
  let result := order_stats_pipeline (menu_collection "menu" d) (payments d) in
  respond 200 (Body_order_stats result).

(** [app.get("/order-stats", verifyToken, verifyAdmin, ...)] *)
Definition get_order_stats {B : Type} (drv : Driver) (req : Request B)
  : M Response :=
  verifyToken drv req (fun decoded => verifyAdmin decoded order_stats).

End Index.

(** ** The sibling revisions of [index.js], where they differ *)

Module Part000.

(** [const menuCollection = db.collection("menu")] *)
Definition menuCollection (d : Db) : list MenuItem := menu_collection "menu" d.

(** The handler of [POST /create-checkout-session] of this revision. *)
Definition create_checkout_session (drv : Driver) (price_ : Q) : M Response :=
  try_catch
    (client_secret <-
       stripe_paymentIntents_create drv (JS.Math_round (price_ * 100)) ;;
     respond 200 (Body_client_secret client_secret))
    (fun error => respond 500 (Body_error "Failed to create payment intent")).

(** The handler of [POST /payments] of this revision: the test is
    [!Array.isArray(payment.cartIds) || payment.cartIds.length === 0] and
    the identifiers go to [new ObjectId] as they are. *)
Definition payments_handler (drv : Driver) (flt : Faults) (payment : Payment)
  : M Response :=
  if negb (JS.isArray (cartIds payment)) || JS.length_is_zero (cartIds payment)
  then respond 400 (Body_error "Invalid cartIds: must be a non-empty array")
  else
    try_catch
      (paymentResult <- paymentCollection_insertOne flt payment ;;
       ids <- array_map (cartIds payment) (fun id => new_ObjectId drv id) ;;
       deleteResult <- cartCollection_deleteMany flt ids ;;
       respond 200 (Body_payment paymentResult deleteResult))
      (fun error => respond 500 (Body_error "Failed to process payment")).

(** The handler of [GET /order-stats]: the same pipeline; here the joined
    collection is [menuCollection]. *)
Definition order_stats : M Response :=
  d <- get_db ;;
  respond 200
    (Body_order_stats (order_stats_pipeline (menu_collection "menu" d) (payments d))).

End Part000.

Module Part001.

(** [const menuCollection = client.db("bistroDb").collection("menu")] *)
Definition menuCollection (d : Db) : list MenuItem := menu_collection "menu" d.

(** The handler of [POST /create-checkout-session] of this revision. *)
Definition create_checkout_session (drv : Driver) (price_ : Q) : M Response :=
  let amount := JS.parseInt (price_ * 100) in
  client_secret <- stripe_paymentIntents_create drv amount ;;
  respond 200 (Body_client_secret client_secret).

(** The handler of [POST /payments] of this revision: no test and no
    [try]; an exception leaves the handler and no response is sent. *)
Definition payments_handler (drv : Driver) (flt : Faults) (payment : Payment)
  : M Response :=
  paymentResult <- paymentCollection_insertOne flt payment ;;
  ids <- array_map (cartIds payment) (fun id => new_ObjectId drv id) ;;
  deleteResult <- cartCollection_deleteMany flt ids ;;
  respond 200 (Body_payment paymentResult deleteResult).

End Part001.

(** ** [index.js]: the routes on carts and users

    The driver calls of these routes are not logged: the log is that of
    the settlement and of the checkout. *)

(** The body of [POST /carts]: a cart entry without its [_id]. *)
Record CartItem : Type := {
  item_email : string;
  item_menuId : string;
  item_price : Q
}.

(** What [res.send] is given by the routes on carts and users. *)
Inductive Answer : Type :=
| Answer_error (msg : string)
| Answer_message (msg : string)
| Answer_carts (result : list CartEntry)
| Answer_users (result : list User)
| Answer_insert (result : InsertOneResult)
| Answer_insert_user (acknowledged : bool)
| Answer_delete (result : DeleteResult)
| Answer_bool (admin : bool).

Record Reply : Type := {
  reply_status : nat;
  reply_body : Answer
}.

Definition reply (code : nat) (a : Answer) : M Reply :=
  ret {| reply_status := code; reply_body := a |}.

(** The [_id] the driver gives a cart document that has none; as for the
    payments, that it is new is the guarantee of the driver and the store,
    taken as given. *)
Definition fresh_cart_id (cs : list CartEntry) : ObjectId :=
  N.succ (fold_right N.max 0%N (map cart_id cs)).

Definition set_users (d : Db) (us : list User) : Db :=
  {| menus := menus d; menu := menu d; carts := carts d;
     users := us; payments := payments d |}.

(** [cartCollection.insertOne(item)]; [rejected] says whether the store
    rejects the call.  A rejected insert stores nothing. *)
Definition cartCollection_insertOne (rejected : bool) (item : CartItem)
  : M InsertOneResult :=
  d <- get_db ;;
  if rejected then throw MongoError
  else
    let id := fresh_cart_id (carts d) in
    _ <- put_db (set_carts d
                   (carts d ++ [{| cart_id := id;
                                   cart_email := item_email item;
                                   cart_menuId := item_menuId item;
                                   cart_price := item_price item |}])) ;;
    ret {| insert_acknowledged := true; insertedId := id |}.

(** What is left of a collection when the first document that matches is
    removed. *)
Fixpoint remove_first {A : Type} (f : A -> bool) (docs : list A) : list A :=
  match docs with
  | [] => []
  | doc :: rest => if f doc then rest else doc :: remove_first f rest
  end.

(** The filter [{_id: oid}] at a cart entry. *)
Definition has_id (oid : ObjectId) (c : CartEntry) : bool :=
  N.eqb (cart_id c) oid.

(** [cartCollection.deleteOne({_id: oid})]: the first entry that matches
    goes.  A rejected delete removes nothing. *)
Definition cartCollection_deleteOne (rejected : bool) (oid : ObjectId)
  : M DeleteResult :=
  d <- get_db ;;
  if rejected then throw MongoError
  else
    _ <- put_db (set_carts d (remove_first (has_id oid) (carts d))) ;;
    ret {| delete_acknowledged := true;
           deletedCount := if existsb (has_id oid) (carts d) then 1 else 0 |}.

(** [usersCollection.findOne({email})] *)
Definition usersCollection_findOne (email : string) : M (option User) :=
  d <- get_db ;;
  ret (find (fun u => String.eqb (user_email u) email) (users d)).

(** [usersCollection.insertOne(user)].  The users of this model carry no
    [_id]: of the answer of the driver only [acknowledged] is kept. *)
Definition usersCollection_insertOne (rejected : bool) (user : User) : M bool :=
  d <- get_db ;;
  if rejected then throw MongoError
  else
    _ <- put_db (set_users d (users d ++ [user])) ;;
    ret true.

Module IndexCrud.

(** The handler of [GET /carts]; [email] is [req.query.email]. *)
Definition get_carts (email : option string) : M Reply :=
  match email with
  | None | Some "" => reply 200 (Answer_carts [])
  | Some e =>
      d <- get_db ;;
      reply 200 (Answer_carts
                   (filter (fun c => String.eqb (cart_email c) e) (carts d)))
  end.

(** The handler of [POST /carts]. *)
Definition post_carts (rejected : bool) (item : CartItem) : M Reply :=
  try_catch
    (result <- cartCollection_insertOne rejected item ;;
     reply 200 (Answer_insert result))
    (fun error => reply 500 (Answer_error "Failed to add item to cart")).

(** The handler of [DELETE /carts/:id]; [id] is [req.params.id].  No [try]
    around the constructor and the driver call. *)
Definition delete_cart (drv : Driver) (rejected : bool) (id : string) : M Reply :=
  oid <- new_ObjectId drv (JS.Str id) ;;
  result <- cartCollection_deleteOne rejected oid ;;
  reply 200 (Answer_delete result).

(** The handler of [POST /users]. *)
Definition post_users (rejected : bool) (user : User) : M Reply :=
  existingUser <- usersCollection_findOne (user_email user) ;;
  match existingUser with
  | Some _ => reply 200 (Answer_message "User already exists!")
  | None =>
      result <- usersCollection_insertOne rejected user ;;
      reply 200 (Answer_insert_user result)
  end.

(** The handler of [GET /users/admin/:email], which [verifyToken] runs with
    the decoded payload; [email] is [req.params.email]. *)
Definition users_admin (decoded : Decoded) (email : string) : M Reply :=
  if negb (String.eqb email (decoded_email decoded))
  then reply 403 (Answer_message "Forbidden access")
  else
    user <- usersCollection_findOne email ;;
    let admin :=
      match user with
      | Some u =>
          match user_role u with
          | Some r => String.eqb r "admin"
          | None => false
          end
      | None => false
      end in
    reply 200 (Answer_bool admin).

End IndexCrud.

Module Part000Crud.

(** The handler of [DELETE /carts/:id] of this revision: the constructor
    and the driver call are inside a [try]. *)
Definition delete_cart (drv : Driver) (rejected : bool) (id : string) : M Reply :=
  try_catch
    (oid <- new_ObjectId drv (JS.Str id) ;;
     result <- cartCollection_deleteOne rejected oid ;;
     reply 200 (Answer_delete result))
    (fun error => reply 500 (Answer_error "Failed to delete cart item")).

End Part000Crud.

(** ** What the statements below are written with *)

(** [cartIds] of a request that the settlement is to refuse: the property
    is missing, or is not a list, or is the empty list. *)
Definition missing_empty_or_not_a_list (v : JS.value) : Prop :=
  v = JS.Undefined \/ (forall xs, v <> JS.Arr xs) \/ v = JS.Arr [].

(** The identifier the settlement of [index.js] makes of an element of
    [cartIds]: [new ObjectId(String(id))]. *)
Definition convert (drv : Driver) (id : JS.value) : option ObjectId :=
  ObjectId_new drv (JS.Str (JS_String drv id)).

(** A settlement request is well formed for [ids] when [cartIds] is a
    non-empty list whose elements convert, in order, to [ids]. *)
Definition well_formed (drv : Driver) (payment : Payment) (ids : list ObjectId)
  : Prop :=
  exists xs, cartIds payment = JS.Arr xs /\ xs <> [] /\
             Forall2 (fun x oid => convert drv x = Some oid) xs ids.

(** The value of a binary64 number as a rational; none for an infinity and
    for NaN. *)
Definition exact (x : float) : option Q :=
  match Prim2SF x with
  | S754_zero _ => Some 0
  | S754_finite s m e =>
      Some ((if s then - inject_Z (Zpos m) else inject_Z (Zpos m)) * 2 ^ e)
  | _ => None
  end.



(** The rows of the join as the pipeline makes them: payment record after
    payment record, the documents of [from] whose identifier the record
    lists, each such document once per record. *)
Definition joined_rows (from : list MenuItem) (docs : list StoredPayment)
  : list MenuItem :=
  flat_map (fun doc =>
              filter (Aggregate.references (menuItems (payment_doc doc))) from)
           docs.


Definition in_category (c : string) (m : MenuItem) : bool :=
  String.eqb (menu_category m) c.

(** The number of rows of a category. *)
Definition quantity_of (c : string) (rows : list MenuItem) : nat :=
  List.length (filter (in_category c) rows).

Fixpoint sum_menu_prices (rows : list MenuItem) : Q :=
  match rows with
  | [] => 0
  | m :: rest => menu_price m + sum_menu_prices rest
  end.

(** The sum of the menu price over the rows of a category. *)
Definition revenue_of (c : string) (rows : list MenuItem) : Q :=
  sum_menu_prices (filter (in_category c) rows).

(** [out] is the breakdown of [rows] by category: one summary for each
    category that has a row and for no other, with the number of rows of the
    category and the sum of their prices. *)
Definition summarises (rows : list MenuItem) (out : list CategorySummary)
  : Prop :=
  NoDup (map category out)
  /\ (forall c, In c (map category out) <->
                exists m, In m rows /\ menu_category m = c)
  /\ (forall s, In s out ->
                quantity s = quantity_of (category s) rows
                /\ revenue s == revenue_of (category s) rows).


(** The world after an acknowledged insert of [payment]. *)
Definition inserted (payment : Payment) (w : World) : World :=
  {| db := set_payments (db w)
             (payments (db w) ++
              [{| payment_id := fresh_ObjectId (payments (db w));
                  payment_doc := payment |}]);
     log := log w ++ [Ev_insertOne payment true] |}.

(** The answer of the [catch] of the settlement. *)
Definition failure_500 : Response :=
  {| status := 500;
     body := Body_error "An error occurred while processing the payment" |}.



(** The five ways a settlement ends. *)
Inductive settle_run (drv : Driver) (flt : Faults) (payment : Payment)
  (w : World) : Outcome Response * World -> Prop :=
| run_refused :
    missing_empty_or_not_a_list (cartIds payment) ->
    settle_run drv flt payment w
      (Return {| status := 400;
                 body := Body_error "Invalid cartIds: cartIds must be a non-empty array" |},
       w)
| run_insert_rejected :
    Index.invalid_cartIds payment = false ->
    insertOne_rejects flt = true ->
    settle_run drv flt payment w
      (Return failure_500,
       {| db := db w; log := log w ++ [Ev_insertOne payment false] |})
| run_conversion_throws xs :
    cartIds payment = JS.Arr xs ->
    Exists (fun x => convert drv x = None) xs ->
    insertOne_rejects flt = false ->
    settle_run drv flt payment w (Return failure_500, inserted payment w)
| run_delete_rejected ids :
    well_formed drv payment ids ->
    insertOne_rejects flt = false ->
    deleteMany_rejects flt = true ->
    settle_run drv flt payment w
      (Return failure_500,
       {| db := db (inserted payment w);
          log := log w ++ [Ev_insertOne payment true; Ev_deleteMany ids false] |})
| run_settled ids :
    well_formed drv payment ids ->
    insertOne_rejects flt = false ->
    deleteMany_rejects flt = false ->
    settle_run drv flt payment w
      (Return
         {| status := 200;
            body :=
              Body_payment
                {| insert_acknowledged := true;
                   insertedId := fresh_ObjectId (payments (db w)) |}
                {| delete_acknowledged := true;
                   deletedCount := List.length (filter (id_in ids) (carts (db w))) |} |},
       {| db := set_carts (db (inserted payment w))
                  (filter (fun c => negb (id_in ids c)) (carts (db w)));
          log := log w ++ [Ev_insertOne payment true; Ev_deleteMany ids true] |}).

(** In a list of driver calls, every [deleteMany] comes after an
    acknowledged [insertOne] of [payment]. *)
Definition insert_precedes_delete (payment : Payment) (calls : list Event)
  : Prop :=
  forall before ids ack after,
    calls = (before ++ Ev_deleteMany ids ack :: after)%list ->
    In (Ev_insertOne payment true) before.

(** [$group] reads of a row its menu document alone. *)
Definition group_rows (rows : list MenuItem) (acc : list Aggregate.Group)
  : list Aggregate.Group :=
  fold_left (fun acc m =>
               Aggregate.group_step (menu_category m) (menu_price m) acc)
            rows acc.

(** The groups [acc] summarise the rows [rows]. *)
Definition groups_summarise (rows : list MenuItem) (acc : list Aggregate.Group)
  : Prop :=
  NoDup (map Aggregate.group_id acc)
  /\ (forall c, In c (map Aggregate.group_id acc) <->
                exists m, In m rows /\ menu_category m = c)
  /\ (forall g, In g acc ->
                Aggregate.group_quantity g = quantity_of (Aggregate.group_id g) rows
                /\ Aggregate.group_revenue g == revenue_of (Aggregate.group_id g) rows).

(** The conversion of a whole list of identifiers by the settlement of
    [index.js], as a value: the identifiers, or the exception of the first
    element that does not convert. *)
Fixpoint convert_all (drv : Driver) (xs : list JS.value)
  : Outcome (list ObjectId) :=
  match xs with
  | [] => Return []
  | x :: rest =>
      match convert drv x with
      | Some oid =>
          match convert_all drv rest with
          | Return ids => Return (oid :: ids)
          | Throw e => Throw e
          end
      | None => Throw (BSONError (JS.Str (JS_String drv x)))
      end
  end.



(** Whether a text holds a space. *)
Fixpoint has_space (s : string) : bool :=
  match s with
  | EmptyString => false
  | String c rest => Ascii.eqb c " "%char || has_space rest
  end.

(** The answer of [GET /carts] for an e-mail: the entries of that owner. *)
Definition carts_of (email : string) (cs : list CartEntry) : list CartEntry :=
  filter (fun c => String.eqb (cart_email c) email) cs.

(** ** A concrete deployment, for the examples *)

Module Example.

Definition hex_digit (c : ascii) : option N :=
  let n := N_of_ascii c in
  if ((48 <=? n) && (n <=? 57))%N then Some (n - 48)%N
  else if ((97 <=? n) && (n <=? 102))%N then Some (n - 87)%N
  else if ((65 <=? n) && (n <=? 70))%N then Some (n - 55)%N
  else None.

Fixpoint hex_value (s : string) (acc : N) : option N :=
  match s with
  | EmptyString => Some acc
  | String c rest =>
      match hex_digit c with
      | Some d => hex_value rest (16 * acc + d)%N
      | None => None
      end
  end.

(** [new ObjectId(v)] accepts the text of 24 hexadecimal digits. *)
Definition ObjectId_of_hex (v : JS.value) : option ObjectId :=
  match v with
  | JS.Str s => if Nat.eqb (String.length s) 24 then hex_value s 0%N else None
  | _ => None
  end.

(** The fraction digits of [r / d], at most [fuel] of them. *)
Fixpoint fraction_digits (fuel : nat) (r : Z) (d : Z) : string :=
  match fuel with
  | O => ""
  | S fuel' =>
      if (r =? 0)%Z then ""
      else
        let r10 := (r * 10)%Z in
        (NilZero.string_of_int (Z.to_int (r10 / d)) ++ fraction_digits fuel' (r10 mod d) d)
  end.

(** The text of a number in positional notation. *)
Definition positional (q : Q) : string :=
  let n := Qnum q in
  let d := Zpos (Qden q) in
  let a := Z.abs n in
  let whole := NilZero.string_of_int (Z.to_int (a / d)) in
  let frac := fraction_digits 20 (a mod d) d in
  ((if (n <? 0)%Z then "-" else "") ++ whole
   ++ (if String.eqb frac "" then "" else "." ++ frac)).

Definition admin_token : string := "token-of-the-admin".
Definition guest_token : string := "token-of-a-guest".

Definition verify (token : option string) : option Decoded :=
  match token with
  | Some t =>
      if String.eqb t admin_token then Some {| decoded_email := "admin@bistro.example" |}
      else if String.eqb t guest_token then Some {| decoded_email := "guest@bistro.example" |}
      else None
  | None => None
  end.

(** The adapter refuses an amount under fifty cents. *)
Definition create_intent (amount : Z) : option string :=
  if (50 <=? amount)%Z then Some "pi_secret" else None.

Definition driver : Driver :=
  {| ObjectId_new := ObjectId_of_hex;
     Number_toString := positional;
     jwt_verify := verify;
     paymentIntents_create := create_intent;
     estimatedDocumentCount := fun n => n |}.

Definition salad : MenuItem :=
  {| menu_id := "A"; menu_name := "Greek salad";
     menu_category := "Salad"; menu_price := 10 |}.

Definition dessert : MenuItem :=
  {| menu_id := "B"; menu_name := "Tiramisu";
     menu_category := "Dessert"; menu_price := 5 |}.

Definition cart_1 : CartEntry :=
  {| cart_id := 1%N; cart_email := "guest@bistro.example";
     cart_menuId := "A"; cart_price := 10 |}.

Definition cart_2 : CartEntry :=
  {| cart_id := 2%N; cart_email := "guest@bistro.example";
     cart_menuId := "B"; cart_price := 5 |}.

Definition cart_3 : CartEntry :=
  {| cart_id := 3%N; cart_email := "admin@bistro.example";
     cart_menuId := "B"; cart_price := 5 |}.

Definition people : list User :=
  [ {| user_email := "admin@bistro.example"; user_role := Some "admin" |};
    {| user_email := "guest@bistro.example"; user_role := None |} ].

(** Both menu collections hold the two dishes; three cart entries; no
    payment yet. *)
Definition database : Db :=
  {| menus := [salad; dessert]; menu := [salad; dessert];
     carts := [cart_1; cart_2; cart_3]; users := people; payments := [] |}.

Definition world : World := {| db := database; log := [] |}.

(** A settlement of the cart entries 1 and 2, and of an entry 9 that
    does not exist. *)
Definition order : Payment :=
  {| userEmail := "guest@bistro.example"; price := 15%float;
     cartIds := JS.Arr [JS.Str "000000000000000000000001";
                        JS.Str "000000000000000000000002";
                        JS.Str "000000000000000000000009"];
     menuItems := ["A"; "B"] |}.


(** The same without [cartIds]. *)
Definition order_no_cartIds : Payment :=
  {| userEmail := "guest@bistro.example"; price := 15%float;
     cartIds := JS.Undefined;
     menuItems := ["A"; "B"] |}.

(** A request without [authorization] header. *)
Definition anonymous {B : Type} (b : B) : Request B :=
  {| authorization := None; req_body := b |}.

Definition bearer {B : Type} (token : string) (b : B) : Request B :=
  {| authorization := Some ("Bearer " ++ token); req_body := b |}.

Definition delete_fails : Faults :=
  {| insertOne_rejects := false; deleteMany_rejects := true |}.

Definition insert_fails : Faults :=
  {| insertOne_rejects := true; deleteMany_rejects := false |}.



(** A payment that lists the salad and the dessert. *)
Definition order_salad_dessert : StoredPayment :=
  {| payment_id := 1%N;
     payment_doc :=
       {| userEmail := "guest@bistro.example"; price := 15%float;
          cartIds := JS.Arr [JS.Str "000000000000000000000001"];
          menuItems := ["A"; "B"] |} |}.

(** The collection [menus] holds the salad and the dessert, the database
    has no collection [menu]; one payment lists both dishes. *)
Definition world_catalog_in_menus : World :=
  {| db := {| menus := [salad; dessert]; menu := []; carts := [];
              users := people; payments := [order_salad_dessert] |};
     log := [] |}.

(** The same dishes and payment, the dishes in the collection [menu]. *)
Definition world_catalog_in_menu : World :=
  {| db := {| menus := []; menu := [salad; dessert]; carts := [];
              users := people; payments := [order_salad_dessert] |};
     log := [] |}.

(** The order of the example sent under another e-mail and price. *)
Definition order_of_the_admin : Payment :=
  {| userEmail := "admin@bistro.example"; price := 1%float;
     cartIds := cartIds order;
     menuItems := [] |}.

(** An order whose [cartIds] is the empty list. *)
Definition order_empty_list : Payment :=
  {| userEmail := "guest@bistro.example"; price := 15%float;
     cartIds := JS.Arr [];
     menuItems := ["A"; "B"] |}.

(** A payment for a dish that is in no menu. *)
Definition order_unknown_dish : StoredPayment :=
  {| payment_id := 2%N;
     payment_doc :=
       {| userEmail := "guest@bistro.example"; price := 7%float;
          cartIds := JS.Arr [JS.Str "000000000000000000000002"];
          menuItems := ["Z"] |} |}.

Definition world_with_unknown_dish : World :=
  {| db := {| menus := []; menu := [salad; dessert]; carts := [];
              users := people;
              payments := [order_salad_dessert; order_unknown_dish] |};
     log := [] |}.

(** The body of a [POST /carts]. *)
Definition item : CartItem :=
  {| item_email := "guest@bistro.example"; item_menuId := "B"; item_price := 5 |}.

(** The body of a [POST /users] that asks for the role of administrator. *)
Definition newcomer : User :=
  {| user_email := "newcomer@bistro.example"; user_role := Some "admin" |}.






End Example.

(** * Properties *)

(** ** The monad *)

Lemma bind_return {A B : Type} (m : M A) (k : A -> M B) (w w' : World) (a : A) :
  m w = (Return a, w') -> bind m k w = k a w'.
Proof. unfold bind. intros ->. reflexivity. Qed.

Lemma bind_throw {A B : Type} (m : M A) (k : A -> M B) (w w' : World) (e : Exn) :
  m w = (Throw e, w') -> bind m k w = (Throw e, w').
Proof. unfold bind. intros ->. reflexivity. Qed.

(** ** The guard of the settlement *)

Lemma invalid_cartIds_spec (payment : Payment) :
  Index.invalid_cartIds payment = true <->
  missing_empty_or_not_a_list (cartIds payment).
Proof.
  unfold Index.invalid_cartIds, missing_empty_or_not_a_list.
  destruct (cartIds payment) as [ | | b | q | s | xs | fs ] eqn:E; cbn.
  - split; [ intros _; now left | reflexivity ].
  - split; [ intros _; right; left; discriminate | reflexivity ].
  - split; [ intros _; right; left; discriminate | ].
    intros _. now destruct (negb b).
  - split; [ intros _; right; left; discriminate | ].
    intros _. now destruct (negb (negb (Qeq_bool q 0))).
  - split; [ intros _; right; left; discriminate | ].
    intros _. now destruct (negb (negb (s =? ""))).
  - destruct xs as [ | x xs ]; cbn.
    + split; [ intros _; right; now right | reflexivity ].
    + split; [ discriminate | ].
      intros [ H | [ H | H ] ]; try discriminate.
      now destruct (H (x :: xs)).
  - split; [ intros _; right; left; discriminate | reflexivity ].
Qed.

Lemma settle_refuses_guard (drv : Driver) (flt : Faults) (payment : Payment)
  (w : World) :
  Index.invalid_cartIds payment = true ->
  Index.payments_handler drv flt payment w =
    (Return {| status := 400;
               body := Body_error "Invalid cartIds: cartIds must be a non-empty array" |},
     w).
Proof.
  intros H. unfold Index.payments_handler, try_catch. rewrite H. reflexivity.
Qed.

(** C1: a settlement whose [cartIds] is missing, empty or not a list is
    answered 400 with the message of the guard, and leaves the world as it
    was: no payment record is inserted, no cart entry is removed and no
    driver call is made. *)
Theorem settle_refuses_invalid_cartIds
  (drv : Driver) (flt : Faults) (req : Request Payment) (w : World) :
  missing_empty_or_not_a_list (cartIds (req_body req)) ->
  Index.post_payments drv flt req w =
    (Return {| status := 400;
               body := Body_error "Invalid cartIds: cartIds must be a non-empty array" |},
     w).
Proof.
  intros H. apply invalid_cartIds_spec in H.
  unfold Index.post_payments, Index.payments_handler, try_catch.
  rewrite H. reflexivity.
Qed.

(** ** The conversion of the identifiers *)

Lemma mapM_cons {A B : Type} (f : A -> M B) (x : A) (xs : list A) (w : World) :
  mapM f (x :: xs) w =
    match f x w with
    | (Return y, w') =>
        match mapM f xs w' with
        | (Return ys, w'') => (Return (y :: ys), w'')
        | (Throw e, w'') => (Throw e, w'')
        end
    | (Throw e, w') => (Throw e, w')
    end.
Proof.
  cbn [mapM]. unfold bind. destruct (f x w) as [ [ y | e ] w' ]; [ | reflexivity ].
  destruct (mapM f xs w') as [ [ ys | e ] w'' ]; reflexivity.
Qed.

Lemma new_ObjectId_run (drv : Driver) (v : JS.value) (w : World) :
  new_ObjectId drv v w =
    match ObjectId_new drv v with
    | Some oid => (Return oid, w)
    | None => (Throw (BSONError v), w)
    end.
Proof. unfold new_ObjectId. now destruct (ObjectId_new drv v). Qed.

Lemma mapM_convert_ok (drv : Driver) (xs : list JS.value) (ids : list ObjectId)
  (w : World) :
  Forall2 (fun x oid => convert drv x = Some oid) xs ids ->
  mapM (fun id => new_ObjectId drv (JS.Str (JS_String drv id))) xs w
  = (Return ids, w).
Proof.
  induction 1 as [ | x oid xs ids Hx _ IH ].
  - reflexivity.
  - rewrite mapM_cons, new_ObjectId_run. unfold convert in Hx. rewrite Hx, IH.
    reflexivity.
Qed.

Lemma mapM_convert_throws (drv : Driver) (xs : list JS.value) (w : World) :
  Exists (fun x => convert drv x = None) xs ->
  exists e, mapM (fun id => new_ObjectId drv (JS.Str (JS_String drv id))) xs w
            = (Throw e, w).
Proof.
  induction xs as [ | x xs IH ]; intros H.
  - inversion H.
  - rewrite mapM_cons, new_ObjectId_run.
    destruct (ObjectId_new drv (JS.Str (JS_String drv x))) as [ oid | ] eqn:E.
    + inversion H as [ ? ? Hx | ? ? Hxs ]; subst.
      * unfold convert in Hx. congruence.
      * destruct (IH Hxs) as [ e He ]. rewrite He. now exists e.
    + eexists. reflexivity.
Qed.

(** ** The paths of the settlement *)

Lemma insertOne_acknowledged (flt : Faults) (payment : Payment) (w : World) :
  insertOne_rejects flt = false ->
  paymentCollection_insertOne flt payment w =
    (Return {| insert_acknowledged := true;
               insertedId := fresh_ObjectId (payments (db w)) |},
     inserted payment w).
Proof.
  intros H. unfold paymentCollection_insertOne, bind, get_db. rewrite H.
  reflexivity.
Qed.

Lemma insertOne_rejected (flt : Faults) (payment : Payment) (w : World) :
  insertOne_rejects flt = true ->
  paymentCollection_insertOne flt payment w =
    (Throw MongoError,
     {| db := db w; log := log w ++ [Ev_insertOne payment false] |}).
Proof.
  intros H. unfold paymentCollection_insertOne, bind, get_db. rewrite H.
  reflexivity.
Qed.

Lemma deleteMany_acknowledged (flt : Faults) (ids : list ObjectId) (w : World) :
  deleteMany_rejects flt = false ->
  cartCollection_deleteMany flt ids w =
    (Return {| delete_acknowledged := true;
               deletedCount := List.length (filter (id_in ids) (carts (db w))) |},
     {| db := set_carts (db w) (filter (fun c => negb (id_in ids c)) (carts (db w)));
        log := log w ++ [Ev_deleteMany ids true] |}).
Proof.
  intros H. unfold cartCollection_deleteMany, bind, get_db. rewrite H.
  reflexivity.
Qed.

Lemma deleteMany_rejected (flt : Faults) (ids : list ObjectId) (w : World) :
  deleteMany_rejects flt = true ->
  cartCollection_deleteMany flt ids w =
    (Throw MongoError,
     {| db := db w; log := log w ++ [Ev_deleteMany ids false] |}).
Proof.
  intros H. unfold cartCollection_deleteMany, bind, get_db. rewrite H.
  reflexivity.
Qed.

(** A well-formed settlement that the store does not reject. *)
Lemma settle_success (drv : Driver) (flt : Faults) (payment : Payment)
  (ids : list ObjectId) (w : World) :
  well_formed drv payment ids ->
  insertOne_rejects flt = false ->
  deleteMany_rejects flt = false ->
  Index.payments_handler drv flt payment w =
    (Return
       {| status := 200;
          body :=
            Body_payment
              {| insert_acknowledged := true;
                 insertedId := fresh_ObjectId (payments (db w)) |}
              {| delete_acknowledged := true;
                 deletedCount := List.length (filter (id_in ids) (carts (db w))) |} |},
     {| db := set_carts (db (inserted payment w))
                (filter (fun c => negb (id_in ids c)) (carts (db w)));
        log := log w ++ [Ev_insertOne payment true; Ev_deleteMany ids true] |}).
Proof.
  intros (xs & Hxs & Hne & Hconv) Hins Hdel.
  unfold Index.payments_handler, try_catch.
  assert (Hguard : Index.invalid_cartIds payment = false).
  { unfold Index.invalid_cartIds. rewrite Hxs. destruct xs; [ congruence | reflexivity ]. }
  rewrite Hguard.
  rewrite (bind_return _ _ _ _ _ (insertOne_acknowledged flt payment w Hins)).
  rewrite Hxs. cbn [array_map].
  rewrite (bind_return _ _ _ _ _ (mapM_convert_ok drv xs ids _ Hconv)).
  rewrite (bind_return _ _ _ _ _ (deleteMany_acknowledged flt ids _ Hdel)).
  cbn. rewrite <- app_assoc. reflexivity.
Qed.

(** The insert is rejected: the handler answers 500 and the database is
    untouched. *)
Lemma settle_insert_rejected (drv : Driver) (flt : Faults) (payment : Payment)
  (w : World) :
  Index.invalid_cartIds payment = false ->
  insertOne_rejects flt = true ->
  Index.payments_handler drv flt payment w =
    (Return failure_500,
     {| db := db w; log := log w ++ [Ev_insertOne payment false] |}).
Proof.
  intros Hguard Hins. unfold Index.payments_handler, try_catch.
  rewrite Hguard.
  rewrite (bind_throw _ _ _ _ _ (insertOne_rejected flt payment w Hins)).
  reflexivity.
Qed.

(** An identifier does not convert: the handler answers 500 after the
    insert and before any delete. *)
Lemma settle_conversion_throws (drv : Driver) (flt : Faults) (payment : Payment)
  (xs : list JS.value) (w : World) :
  cartIds payment = JS.Arr xs ->
  Exists (fun x => convert drv x = None) xs ->
  insertOne_rejects flt = false ->
  Index.payments_handler drv flt payment w =
    (Return failure_500, inserted payment w).
Proof.
  intros Hxs Hbad Hins. unfold Index.payments_handler, try_catch.
  assert (Hguard : Index.invalid_cartIds payment = false).
  { unfold Index.invalid_cartIds. rewrite Hxs.
    destruct xs; [ inversion Hbad | reflexivity ]. }
  rewrite Hguard.
  rewrite (bind_return _ _ _ _ _ (insertOne_acknowledged flt payment w Hins)).
  rewrite Hxs. cbn [array_map].
  destruct (mapM_convert_throws drv xs (inserted payment w) Hbad) as [ e He ].
  rewrite (bind_throw _ _ _ _ _ He). reflexivity.
Qed.

(** The delete is rejected after the insert: the handler answers 500 and
    the inserted record stays. *)
Lemma settle_delete_rejected (drv : Driver) (flt : Faults) (payment : Payment)
  (ids : list ObjectId) (w : World) :
  well_formed drv payment ids ->
  insertOne_rejects flt = false ->
  deleteMany_rejects flt = true ->
  Index.payments_handler drv flt payment w =
    (Return failure_500,
     {| db := db (inserted payment w);
        log := log w ++ [Ev_insertOne payment true; Ev_deleteMany ids false] |}).
Proof.
  intros (xs & Hxs & Hne & Hconv) Hins Hdel.
  unfold Index.payments_handler, try_catch.
  assert (Hguard : Index.invalid_cartIds payment = false).
  { unfold Index.invalid_cartIds. rewrite Hxs. destruct xs; [ congruence | reflexivity ]. }
  rewrite Hguard.
  rewrite (bind_return _ _ _ _ _ (insertOne_acknowledged flt payment w Hins)).
  rewrite Hxs. cbn [array_map].
  rewrite (bind_return _ _ _ _ _ (mapM_convert_ok drv xs ids _ Hconv)).
  rewrite (bind_throw _ _ _ _ _ (deleteMany_rejected flt ids _ Hdel)).
  cbn. rewrite <- app_assoc. reflexivity.
Qed.

(** ** Every execution of the settlement *)

Lemma convert_all_or_one_fails (drv : Driver) (xs : list JS.value) :
  (exists ids, Forall2 (fun x oid => convert drv x = Some oid) xs ids)
  \/ Exists (fun x => convert drv x = None) xs.
Proof.
  induction xs as [ | x xs [ [ ids IH ] | IH ] ].
  - left. now exists [].
  - destruct (convert drv x) as [ oid | ] eqn:E.
    + left. exists (oid :: ids). now constructor.
    + right. now constructor.
  - right. now constructor 2.
Qed.

Lemma settle_runs (drv : Driver) (flt : Faults) (payment : Payment) (w : World) :
  settle_run drv flt payment w (Index.payments_handler drv flt payment w).
Proof.
  destruct (Index.invalid_cartIds payment) eqn:Hguard.
  - pose proof (proj1 (invalid_cartIds_spec payment) Hguard) as Hbad.
    pose proof (settle_refuses_guard drv flt payment w Hguard) as ->.
    now constructor.
  - destruct (insertOne_rejects flt) eqn:Hins.
    + rewrite (settle_insert_rejected drv flt payment w Hguard Hins).
      now constructor.
    + assert (exists xs, cartIds payment = JS.Arr xs /\ xs <> []) as (xs & Hxs & Hne).
      { unfold Index.invalid_cartIds in Hguard.
        destruct (cartIds payment) as [ | | b | q | s | xs | fs ]; cbn in Hguard;
          try discriminate;
          try (rewrite orb_true_r in Hguard; discriminate).
        exists xs. split; [ reflexivity | ]. now destruct xs. }
      destruct (convert_all_or_one_fails drv xs) as [ [ ids Hids ] | Hbad ].
      * assert (Hwf : well_formed drv payment ids) by (exists xs; auto).
        destruct (deleteMany_rejects flt) eqn:Hdel.
        -- rewrite (settle_delete_rejected drv flt payment ids w Hwf Hins Hdel).
           now apply run_delete_rejected.
        -- rewrite (settle_success drv flt payment ids w Hwf Hins Hdel).
           now apply run_settled.
      * rewrite (settle_conversion_throws drv flt payment xs w Hxs Hbad Hins).
        now apply run_conversion_throws with xs.
Qed.

(** ** The store *)

Lemma fresh_ObjectId_above (docs : list StoredPayment) (doc : StoredPayment) :
  In doc docs -> (payment_id doc < fresh_ObjectId docs)%N.
Proof.
  unfold fresh_ObjectId. induction docs as [ | d docs IH ]; intros H.
  - destruct H.
  - cbn [map fold_right]. destruct H as [ -> | H ].
    + lia.
    + specialize (IH H). lia.
Qed.

Lemma fresh_ObjectId_is_fresh (docs : list StoredPayment) :
  ~ In (fresh_ObjectId docs) (map payment_id docs).
Proof.
  intros H. apply in_map_iff in H as (doc & Hid & Hin).
  apply fresh_ObjectId_above in Hin. lia.
Qed.

Lemma id_in_spec (ids : list ObjectId) (c : CartEntry) :
  id_in ids c = true <-> In (cart_id c) ids.
Proof.
  unfold id_in. rewrite existsb_exists. split.
  - intros (i & Hin & Heq). apply N.eqb_eq in Heq. now subst.
  - intros H. exists (cart_id c). split; [ assumption | apply N.eqb_refl ].
Qed.

Lemma filter_length_split {A : Type} (f : A -> bool) (l : list A) :
  (List.length (filter f l) + List.length (filter (fun x => negb (f x)) l)
   = List.length l)%nat.
Proof.
  induction l as [ | x l IH ]; cbn; [ reflexivity | ].
  destruct (f x); cbn; lia.
Qed.

Lemma filter_none {A : Type} (f : A -> bool) (l : list A) :
  (forall x, In x l -> f x = false) -> filter f l = [].
Proof.
  induction l as [ | x l IH ]; intros H; cbn; [ reflexivity | ].
  rewrite (H x (or_introl eq_refl)). apply IH. intros y Hy. apply H. now right.
Qed.

Lemma filter_all {A : Type} (f : A -> bool) (l : list A) :
  (forall x, In x l -> f x = true) -> filter f l = l.
Proof.
  induction l as [ | x l IH ]; intros H; cbn; [ reflexivity | ].
  rewrite (H x (or_introl eq_refl)). f_equal. apply IH. intros y Hy. apply H. now right.
Qed.

(** What an acknowledged [deleteMany] leaves holds no entry of [ids]. *)
Lemma nothing_left_to_delete (ids : list ObjectId) (cs : list CartEntry) :
  filter (id_in ids) (filter (fun c => negb (id_in ids c)) cs) = [].
Proof.
  apply filter_none. intros c Hc. apply filter_In in Hc as [ _ Hc ].
  now destruct (id_in ids c).
Qed.

(** C7: a well-formed settlement that the store carries out is answered 200;
    the cart entries that remain are exactly the former ones whose identifier
    is not in [cartIds], an identifier that matches no entry being passed
    over; the answer carries the identifier under which the payment record
    was stored and, as [deletedCount], the number of entries removed; when
    no entry matches, the cart is left as it was and the count is 0. *)
Theorem settle_removes_listed_cart_entries
  (drv : Driver) (flt : Faults) (req : Request Payment) (ids : list ObjectId)
  (w : World) :
  well_formed drv (req_body req) ids ->
  insertOne_rejects flt = false ->
  deleteMany_rejects flt = false ->
  exists paymentResult deleteResult w',
    Index.post_payments drv flt req w =
      (Return {| status := 200; body := Body_payment paymentResult deleteResult |}, w')
    /\ (forall c, In c (carts (db w')) <->
                  In c (carts (db w)) /\ ~ In (cart_id c) ids)
    /\ (deletedCount deleteResult + List.length (carts (db w'))
        = List.length (carts (db w)))%nat
    /\ payments (db w') =
         (payments (db w) ++ [{| payment_id := insertedId paymentResult;
                                 payment_doc := req_body req |}])%list
    /\ ~ In (insertedId paymentResult) (map payment_id (payments (db w)))
    /\ ((forall c, In c (carts (db w)) -> ~ In (cart_id c) ids) ->
        carts (db w') = carts (db w) /\ deletedCount deleteResult = 0%nat).
Proof.
  intros Hwf Hins Hdel. unfold Index.post_payments.
  rewrite (settle_success drv flt (req_body req) ids w Hwf Hins Hdel).
  do 3 eexists. split; [ reflexivity | ]. cbn.
  split; [ | split; [ | split; [ | split ] ] ].
  - intros c. rewrite filter_In, <- id_in_spec.
    destruct (id_in ids c); cbn; intuition congruence.
  - apply filter_length_split.
  - reflexivity.
  - apply fresh_ObjectId_is_fresh.
  - intros H. split.
    + apply filter_all. intros c Hc. specialize (H c Hc).
      rewrite <- id_in_spec in H. now destruct (id_in ids c).
    + rewrite filter_none; [ reflexivity | ]. intros c Hc. specialize (H c Hc).
      rewrite <- id_in_spec in H. now destruct (id_in ids c).
Qed.

(** C8: two settlements with the same arguments, one after the other, are
    both answered 200 and leave two payment records with the same content
    under two different identifiers; the second removes no cart entry. *)
Theorem settle_is_not_idempotent
  (drv : Driver) (flt : Faults) (req : Request Payment) (ids : list ObjectId)
  (w : World) :
  well_formed drv (req_body req) ids ->
  insertOne_rejects flt = false ->
  deleteMany_rejects flt = false ->
  exists r1 d1 w1 r2 d2 w2,
    Index.post_payments drv flt req w =
      (Return {| status := 200; body := Body_payment r1 d1 |}, w1)
    /\ Index.post_payments drv flt req w1 =
      (Return {| status := 200; body := Body_payment r2 d2 |}, w2)
    /\ payments (db w2) =
         (payments (db w) ++
          [{| payment_id := insertedId r1; payment_doc := req_body req |};
           {| payment_id := insertedId r2; payment_doc := req_body req |}])%list
    /\ insertedId r1 <> insertedId r2
    /\ deletedCount d2 = 0%nat
    /\ carts (db w2) = carts (db w1).
Proof.
  intros Hwf Hins Hdel. unfold Index.post_payments.
  rewrite (settle_success drv flt (req_body req) ids w Hwf Hins Hdel).
  do 3 eexists.
  rewrite (settle_success drv flt (req_body req) ids _ Hwf Hins Hdel).
  do 3 eexists. split; [ reflexivity | ]. split; [ reflexivity | ]. cbn.
  repeat split.
  - rewrite <- app_assoc. reflexivity.
  - set (first := {| payment_id := fresh_ObjectId (payments (db w));
                     payment_doc := req_body req |}).
    assert (Hlt : (payment_id first
                   < fresh_ObjectId ((payments (db w) ++ [first])%list))%N).
    { apply fresh_ObjectId_above. apply in_or_app. right. now left. }
    cbn in Hlt. lia.
  - now rewrite nothing_left_to_delete.
  - apply filter_all. intros c Hc. apply filter_In in Hc as [ _ Hc ]. exact Hc.
Qed.




Lemma precedes_nil (payment : Payment) : insert_precedes_delete payment [].
Proof. intros [ | ? ? ] ? ? ? H; discriminate. Qed.

Lemma precedes_insert_only (payment : Payment) (ack : bool) :
  insert_precedes_delete payment [Ev_insertOne payment ack].
Proof.
  intros [ | e [ | ? ? ] ] ? ? ? H; discriminate.
Qed.

Lemma precedes_insert_delete (payment : Payment) (ids : list ObjectId) (ack : bool) :
  insert_precedes_delete payment [Ev_insertOne payment true; Ev_deleteMany ids ack].
Proof.
  intros [ | e [ | e' [ | ? ? ] ] ] ? ? ? H; try discriminate.
  injection H as -> _. now left.
Qed.

(** C6: in every execution of the settlement the calls it makes put the
    insert of the payment record before the delete of the cart entries.
    When the insert is rejected, the database is as it was and no delete is
    issued.  When the delete is rejected, the answer is 500 and the record
    stored by the insert is still there, the cart being as it was. *)
Theorem settle_inserts_before_it_deletes
  (drv : Driver) (flt : Faults) (req : Request Payment) (w : World) :
  exists r w' calls,
    Index.post_payments drv flt req w = (Return r, w')
    /\ log w' = (log w ++ calls)%list
    /\ insert_precedes_delete (req_body req) calls
    /\ (In (Ev_insertOne (req_body req) false) calls ->
        db w' = db w /\ forall ids ack, ~ In (Ev_deleteMany ids ack) calls)
    /\ (forall ids, In (Ev_deleteMany ids false) calls ->
        status r = 500%nat
        /\ payments (db w') =
             (payments (db w) ++ [{| payment_id := fresh_ObjectId (payments (db w));
                                     payment_doc := req_body req |}])%list
        /\ carts (db w') = carts (db w)).
Proof.
  unfold Index.post_payments.
  destruct (settle_runs drv flt (req_body req) w)
    as [ Hbad | Hguard Hins | xs Hxs Hbad Hins | ids Hwf Hins Hdel | ids Hwf Hins Hdel ].
  - eexists _, _, []. rewrite app_nil_r.
    repeat split; try apply precedes_nil; intros; try contradiction.
    all: now exfalso.
  - eexists _, _, _. split; [ reflexivity | ]. split; [ reflexivity | ].
    split; [ apply precedes_insert_only | ]. split.
    + intros _. split; [ reflexivity | ].
      intros ids ack [ H | [] ]. discriminate.
    + intros ids [ H | [] ]. discriminate.
  - eexists _, _, _. split; [ reflexivity | ]. split; [ reflexivity | ].
    split; [ apply precedes_insert_only | ]. split.
    + intros [ H | [] ]. discriminate.
    + intros ids [ H | [] ]. discriminate.
  - eexists _, _, _. split; [ reflexivity | ]. split; [ reflexivity | ].
    split; [ apply precedes_insert_delete | ]. split.
    + intros [ H | [ H | [] ] ]; discriminate.
    + intros _ _. repeat split.
  - eexists _, _, _. split; [ reflexivity | ]. split; [ reflexivity | ].
    split; [ apply precedes_insert_delete | ]. split.
    + intros [ H | [ H | [] ] ]; discriminate.
    + intros ids' [ H | [ H | [] ] ]; discriminate.
Qed.

(** ** The gates *)

Lemma verifyAdmin_passes (decoded : Decoded) (next : M Response) (w : World)
  (r : Response) (w' : World) :
  Index.verifyAdmin decoded next w = (Return r, w') ->
  status r <> 403%nat ->
  exists u, In u (users (db w))
            /\ user_email u = decoded_email decoded
            /\ user_role u = Some "admin".
Proof.
  unfold Index.verifyAdmin, bind, get_db.
  destruct (find _ (users (db w))) as [ u | ] eqn:Hfind; cbn.
  - apply find_some in Hfind as [ Hin Heq ]. apply String.eqb_eq in Heq.
    destruct (user_role u) as [ role | ] eqn:Hrole; cbn.
    + destruct (String.eqb role "admin") eqn:Hadmin; cbn.
      * apply String.eqb_eq in Hadmin. subst role. intros _ _. now exists u.
      * intros [= <- _ ] H. now destruct H.
    + intros [= <- _ ] H. now destruct H.
  - intros [= <- _ ] H. now destruct H.
Qed.

Lemma verifyToken_passes {B : Type} (drv : Driver) (req : Request B)
  (next : Decoded -> M Response) (w : World) (r : Response) (w' : World) :
  Index.verifyToken drv req next w = (Return r, w') ->
  status r <> 401%nat ->
  exists header decoded,
    authorization req = Some header
    /\ jwt_verify drv (nth_error (JS.split_space header) 1) = Some decoded
    /\ next decoded w = (Return r, w').
Proof.
  unfold Index.verifyToken.
  destruct (authorization req) as [ header | ].
  - destruct header as [ | c header ].
    + intros [= <- _ ] H. now destruct H.
    + destruct (jwt_verify drv _) as [ decoded | ] eqn:Hjwt.
      * intros Hrun _. now exists (String c header), decoded.
      * intros [= <- _ ] H. now destruct H.
  - intros [= <- _ ] H. now destruct H.
Qed.

(** C10: the settlement runs for every request: it always answers, never
    with 401 or 403, and what it does is the same whatever the
    [authorization] header, present or not.  The two reporting routes are
    gated: without the header they answer 401, and they answer something
    other than 401 and 403 only when the header carries a token that
    [jwt.verify] accepts and the user of the decoded e-mail has the role
    ["admin"]. *)
Theorem settle_is_not_gated
  (drv : Driver) (flt : Faults) (req : Request Payment) (w : World) :
  (exists r w', Index.post_payments drv flt req w = (Return r, w')
                /\ status r <> 401%nat /\ status r <> 403%nat)
  /\ (forall header,
        Index.post_payments drv flt
          {| authorization := header; req_body := req_body req |} w
        = Index.post_payments drv flt req w)
  /\ Index.get_admin_stats drv
       {| authorization := None; req_body := req_body req |} w
     = (Return {| status := 401; body := Body_error_message "unauthorized access" |}, w)
  /\ Index.get_order_stats drv
       {| authorization := None; req_body := req_body req |} w
     = (Return {| status := 401; body := Body_error_message "unauthorized access" |}, w)
  /\ (forall route r w',
        route = Index.get_admin_stats drv req \/ route = Index.get_order_stats drv req ->
        route w = (Return r, w') ->
        status r <> 401%nat -> status r <> 403%nat ->
        exists header decoded u,
          authorization req = Some header
          /\ jwt_verify drv (nth_error (JS.split_space header) 1) = Some decoded
          /\ In u (users (db w))
          /\ user_email u = decoded_email decoded
          /\ user_role u = Some "admin").
Proof.
  split; [ | split; [ | split; [ | split ] ] ].
  - unfold Index.post_payments.
    destruct (settle_runs drv flt (req_body req) w); do 2 eexists;
      (split; [ reflexivity | cbn; split; discriminate ]).
  - reflexivity.
  - reflexivity.
  - reflexivity.
  - intros route r w' Hroute Hrun H401 H403.
    assert (exists next,
               Index.verifyToken drv req (fun decoded => Index.verifyAdmin decoded next) w
               = (Return r, w')) as [ next Hnext ].
    { destruct Hroute as [ -> | -> ]; eexists; exact Hrun. }
    apply verifyToken_passes in Hnext as (header & decoded & Hh & Hjwt & Hadmin);
      [ | assumption ].
    apply verifyAdmin_passes in Hadmin as (u & Hu); [ | assumption ].
    now exists header, decoded, u.
Qed.

(** ** The revenue *)

Lemma admin_stats_run (drv : Driver) (w : World) :
  exists rev orders users_ products,
    Index.admin_stats drv w =
      (Return {| status := 200; body := Body_stats rev orders users_ products |}, w)
    /\ rev = fold_left (fun total payment =>
                          PrimFloat.add total (price (payment_doc payment)))
                       (payments (db w)) PrimFloat.zero.
Proof. do 4 eexists. split; reflexivity. Qed.



(** ** The pipeline *)

Lemma unwind_lookup_rows (from : list MenuItem) (docs : list StoredPayment) :
  map Aggregate.unwound_menuItems (Aggregate.unwind (Aggregate.lookup from docs))
  = joined_rows from docs.
Proof.
  unfold Aggregate.unwind, Aggregate.lookup, joined_rows.
  induction docs as [ | doc docs IH ]; cbn; [ reflexivity | ].
  rewrite map_app, IH, map_map. cbn. now rewrite map_id.
Qed.

Lemma group_of_rows (docs : list Aggregate.Unwound) (acc : list Aggregate.Group) :
  fold_left (fun acc doc =>
               Aggregate.group_step
                 (menu_category (Aggregate.unwound_menuItems doc))
                 (menu_price (Aggregate.unwound_menuItems doc)) acc)
            docs acc
  = group_rows (map Aggregate.unwound_menuItems docs) acc.
Proof.
  revert acc. induction docs as [ | doc docs IH ]; intros acc; cbn;
    [ reflexivity | apply IH ].
Qed.

Lemma group_step_ids (key : string) (amount : Q) (acc : list Aggregate.Group) :
  map Aggregate.group_id (Aggregate.group_step key amount acc) =
    if existsb (String.eqb key) (map Aggregate.group_id acc)
    then map Aggregate.group_id acc
    else (map Aggregate.group_id acc ++ [key])%list.
Proof.
  induction acc as [ | g acc IH ]; cbn; [ reflexivity | ].
  rewrite (String.eqb_sym key).
  destruct (String.eqb (Aggregate.group_id g) key) eqn:E; cbn.
  - apply String.eqb_eq in E. now rewrite E.
  - now rewrite IH; destruct (existsb _ _).
Qed.

Lemma group_step_In (key : string) (amount : Q) (acc : list Aggregate.Group)
  (g' : Aggregate.Group) :
  NoDup (map Aggregate.group_id acc) ->
  In g' (Aggregate.group_step key amount acc) ->
  (In g' acc /\ Aggregate.group_id g' <> key)
  \/ (Aggregate.group_id g' = key
      /\ exists g, In g acc /\ Aggregate.group_id g = key
                   /\ Aggregate.group_quantity g' = (Aggregate.group_quantity g + 1)%nat
                   /\ Aggregate.group_revenue g' = Aggregate.group_revenue g + amount)
  \/ (Aggregate.group_id g' = key
      /\ ~ In key (map Aggregate.group_id acc)
      /\ Aggregate.group_quantity g' = 1%nat
      /\ Aggregate.group_revenue g' = 0 + amount).
Proof.
  induction acc as [ | g acc IH ]; cbn; intros Hnd Hin.
  - destruct Hin as [ <- | [] ]. right. right. cbn. tauto.
  - inversion Hnd as [ | ? ? Hnotin Hnd' ]; subst.
    destruct (String.eqb (Aggregate.group_id g) key) eqn:E.
    + apply String.eqb_eq in E. destruct Hin as [ <- | Hin ].
      * right. left. cbn. split; [ reflexivity | ]. exists g. tauto.
      * left. split; [ now right | ].
        intros Heq. apply Hnotin. rewrite E, <- Heq. now apply in_map.
    + apply String.eqb_neq in E. destruct Hin as [ <- | Hin ].
      * left. split; [ now left | assumption ].
      * destruct (IH Hnd' Hin) as [ [ H1 H2 ] | [ [ H1 (g0 & H2 & H3) ] | [ H1 [ H2 H3 ] ] ] ].
        -- left. split; [ now right | assumption ].
        -- right. left. split; [ assumption | ]. exists g0. split; [ now right | assumption ].
        -- right. right. split; [ assumption | ]. split; [ | assumption ].
           intros [ H | H ]; [ now apply E | now apply H2 ].
Qed.

Lemma quantity_of_snoc (c : string) (rows : list MenuItem) (m : MenuItem) :
  quantity_of c (rows ++ [m]) =
    (quantity_of c rows + (if in_category c m then 1 else 0))%nat.
Proof.
  unfold quantity_of. rewrite filter_app, length_app. cbn.
  now destruct (in_category c m).
Qed.

Lemma sum_menu_prices_app (l1 l2 : list MenuItem) :
  sum_menu_prices (l1 ++ l2) == sum_menu_prices l1 + sum_menu_prices l2.
Proof.
  induction l1 as [ | m l1 IH ]; cbn; [ ring | rewrite IH; ring ].
Qed.

Lemma revenue_of_snoc (c : string) (rows : list MenuItem) (m : MenuItem) :
  revenue_of c (rows ++ [m]) ==
    revenue_of c rows + (if in_category c m then menu_price m else 0).
Proof.
  unfold revenue_of. rewrite filter_app, sum_menu_prices_app. cbn.
  destruct (in_category c m); cbn; ring.
Qed.

Lemma no_row_of_category (c : string) (rows : list MenuItem) :
  (forall m, In m rows -> menu_category m <> c) ->
  filter (in_category c) rows = [].
Proof.
  intros H. apply filter_none. intros m Hm. apply String.eqb_neq. now apply H.
Qed.

Lemma existsb_eqb_In (key : string) (l : list string) :
  existsb (String.eqb key) l = true <-> In key l.
Proof.
  rewrite existsb_exists. split.
  - intros (x & Hin & Heq). apply String.eqb_eq in Heq. now subst.
  - intros H. exists key. split; [ assumption | apply String.eqb_refl ].
Qed.

Lemma group_step_summarises (rows : list MenuItem) (acc : list Aggregate.Group)
  (m : MenuItem) :
  groups_summarise rows acc ->
  groups_summarise (rows ++ [m])
    (Aggregate.group_step (menu_category m) (menu_price m) acc).
Proof.
  intros (Hnd & Hkeys & Hvals).
  set (key := menu_category m). set (amount := menu_price m).
  pose proof (group_step_ids key amount acc) as Hids.
  destruct (existsb (String.eqb key) (map Aggregate.group_id acc)) eqn:Hex.
  - (* the category already has a group *)
    apply existsb_eqb_In in Hex.
    split; [ now rewrite Hids | ]. split.
    + intros c. rewrite Hids, Hkeys. split.
      * intros (m' & Hin & Hc). exists m'. split; [ apply in_or_app; now left | assumption ].
      * intros (m' & Hin & Hc). apply in_app_or in Hin as [ Hin | [ <- | [] ] ].
        -- now exists m'.
        -- apply Hkeys. now rewrite <- Hc.
    + intros g' Hg'. rewrite quantity_of_snoc, revenue_of_snoc.
      destruct (group_step_In key amount acc g' Hnd Hg')
        as [ [ Hin Hneq ] | [ [ Hid (g & Hin & Hgid & Hq & Hr) ] | [ Hid [ Hnot _ ] ] ] ].
      * destruct (Hvals g' Hin) as [ Hq Hr ].
        assert (E : in_category (Aggregate.group_id g') m = false).
        { apply String.eqb_neq. intros H. apply Hneq. now rewrite <- H. }
        rewrite E, Hq, Hr. split; [ lia | ring ].
      * destruct (Hvals g Hin) as [ Hq' Hr' ].
        assert (E : in_category (Aggregate.group_id g') m = true).
        { apply String.eqb_eq. now rewrite Hid. }
        rewrite E, Hq, Hr, Hq', Hr', Hid, Hgid. split; [ reflexivity | reflexivity ].
      * contradiction.
  - (* the category gets its group *)
    assert (Hnot : ~ In key (map Aggregate.group_id acc)).
    { intros H. apply existsb_eqb_In in H. congruence. }
    assert (Hnone : forall m', In m' rows -> menu_category m' <> key).
    { intros m' Hin Hc. apply Hnot, Hkeys. now exists m'. }
    split.
    { rewrite Hids. apply NoDup_app; [ assumption | repeat constructor; intros [] | ].
      intros c Hc [ <- | [] ]. contradiction. }
    split.
    + intros c. rewrite Hids, in_app_iff, Hkeys. split.
      * intros [ (m' & Hin & Hc) | [ <- | [] ] ].
        -- exists m'. split; [ apply in_or_app; now left | assumption ].
        -- exists m. split; [ apply in_or_app; right; now left | reflexivity ].
      * intros (m' & Hin & Hc). apply in_app_or in Hin as [ Hin | [ <- | [] ] ].
        -- left. now exists m'.
        -- right. left. now rewrite <- Hc.
    + intros g' Hg'. rewrite quantity_of_snoc, revenue_of_snoc.
      destruct (group_step_In key amount acc g' Hnd Hg')
        as [ [ Hin Hneq ] | [ [ Hid (g & Hin & Hgid & _) ] | [ Hid (_ & Hq & Hr) ] ] ].
      * destruct (Hvals g' Hin) as [ Hq Hr ].
        assert (E : in_category (Aggregate.group_id g') m = false).
        { apply String.eqb_neq. intros H. apply Hneq. now rewrite <- H. }
        rewrite E, Hq, Hr. split; [ lia | ring ].
      * exfalso. apply Hnot. rewrite <- Hgid. now apply in_map.
      * assert (E : in_category (Aggregate.group_id g') m = true).
        { apply String.eqb_eq. now rewrite Hid. }
        unfold quantity_of, revenue_of.
        rewrite E, Hq, Hr, Hid, (no_row_of_category key rows Hnone). cbn.
        split; [ reflexivity | subst amount; ring ].
Qed.

Lemma group_rows_summarises (rows seen : list MenuItem) (acc : list Aggregate.Group) :
  groups_summarise seen acc ->
  groups_summarise (seen ++ rows) (group_rows rows acc).
Proof.
  revert seen acc. induction rows as [ | m rows IH ]; intros seen acc H; cbn.
  - now rewrite app_nil_r.
  - replace (seen ++ m :: rows)%list with ((seen ++ [m]) ++ rows)%list
      by (now rewrite <- app_assoc).
    apply IH. now apply group_step_summarises.
Qed.

Lemma no_group_summarises_no_row : groups_summarise [] [].
Proof.
  split; [ constructor | ]. split.
  - intros c. split; [ intros [] | intros (m & [] & _) ].
  - intros g [].
Qed.

Lemma project_summarises (rows : list MenuItem) (acc : list Aggregate.Group) :
  groups_summarise rows acc -> summarises rows (Aggregate.project acc).
Proof.
  intros (Hnd & Hkeys & Hvals). unfold summarises, Aggregate.project.
  rewrite map_map. cbn. split; [ assumption | ]. split; [ assumption | ].
  intros s Hs. apply in_map_iff in Hs as (g & <- & Hg). cbn. now apply Hvals.
Qed.

(** The pipeline summarises the rows of its join. *)
Lemma pipeline_summarises (from : list MenuItem) (docs : list StoredPayment) :
  summarises (joined_rows from docs) (order_stats_pipeline from docs).
Proof.
  unfold order_stats_pipeline, Aggregate.group.
  rewrite group_of_rows, unwind_lookup_rows.
  apply project_summarises.
  apply (group_rows_summarises (joined_rows from docs) [] []).
  apply no_group_summarises_no_row.
Qed.



(** *** Where no record lists an identifier twice *)









(** C5 at the database whose catalog is the collection [menus]: the
    handler of [index.js], whose [menuCollection] is [menus], joins the
    collection [menu] and answers the empty list. *)
Theorem order_stats_misses_the_catalog :
  Index.menuCollection (db Example.world_catalog_in_menus)
  = [Example.salad; Example.dessert]
  /\ payments (db Example.world_catalog_in_menus) = [Example.order_salad_dessert]
  /\ Index.order_stats Example.world_catalog_in_menus
     = (Return {| status := 200; body := Body_order_stats [] |},
        Example.world_catalog_in_menus).
Proof. repeat split. Qed.

(** In the sibling revisions [menuCollection] is the collection [menu], the
    one the pipeline joins, and the scenario of C5 gives the two summaries. *)
Lemma order_stats_of_the_sibling_revision :
  Part000.menuCollection (db Example.world_catalog_in_menu)
  = [Example.salad; Example.dessert]
  /\ exists salads desserts,
      Part000.order_stats Example.world_catalog_in_menu
      = (Return {| status := 200;
                   body := Body_order_stats
                             [ {| category := "Salad"; quantity := 1; revenue := salads |};
                               {| category := "Dessert"; quantity := 1; revenue := desserts |} ] |},
         Example.world_catalog_in_menu)
      /\ salads == 10 /\ desserts == 5.
Proof.
  split; [ reflexivity | ]. do 2 eexists. split; [ reflexivity | ].
  split; reflexivity.
Qed.

(** ** The amount of the checkout *)

(** [Math.round] gives the nearest integer, a tie going up. *)
Lemma Math_round_nearest (x : Q) :
  inject_Z (JS.Math_round x) - (1 # 2) <= x
  /\ x < inject_Z (JS.Math_round x) + (1 # 2).
Proof.
  unfold JS.Math_round.
  pose proof (Qfloor_le (x + (1 # 2))) as Hle.
  pose proof (Qlt_floor (x + (1 # 2))) as Hlt.
  rewrite inject_Z_plus in Hlt.
  split.
  - apply Qplus_le_l with (z := 1 # 2). ring_simplify.
    ring_simplify in Hle. exact Hle.
  - apply Qplus_lt_l with (z := 1 # 2).
    setoid_replace (inject_Z (Qfloor (x + (1 # 2))) + (1 # 2) + (1 # 2))
      with (inject_Z (Qfloor (x + (1 # 2))) + inject_Z 1) by ring.
    exact Hlt.
Qed.

Lemma paymentIntents_create_run (drv : Driver) (amount : Z) (w : World) :
  stripe_paymentIntents_create drv amount w =
    (match paymentIntents_create drv amount with
     | Some client_secret => Return client_secret
     | None => Throw StripeError
     end,
     {| db := db w; log := (log w ++ [Ev_paymentIntents_create amount])%list |}).
Proof.
  unfold stripe_paymentIntents_create, bind, emit.
  now destruct (paymentIntents_create drv amount).
Qed.

(** The sibling revision charges the amount in cents rounded to the
    nearest integer. *)
Lemma sibling_checkout_rounds (drv : Driver) (price_ : Q) (w : World) :
  exists out amount,
    Part000.create_checkout_session drv price_ w
    = (out, {| db := db w; log := (log w ++ [Ev_paymentIntents_create amount])%list |})
    /\ inject_Z amount - (1 # 2) <= price_ * 100
    /\ price_ * 100 < inject_Z amount + (1 # 2).
Proof.
  unfold Part000.create_checkout_session, try_catch, bind.
  rewrite paymentIntents_create_run.
  destruct (paymentIntents_create drv _); do 2 eexists;
    (split; [ reflexivity | apply Math_round_nearest ]).
Qed.

Lemma sibling_checkout_of_12_345 (drv : Driver) (w : World) :
  exists out,
    Part000.create_checkout_session drv (12345 # 1000) w
    = (out, {| db := db w; log := (log w ++ [Ev_paymentIntents_create 1235])%list |}).
Proof.
  unfold Part000.create_checkout_session, try_catch, bind.
  rewrite paymentIntents_create_run.
  destruct (paymentIntents_create drv _); eexists; reflexivity.
Qed.

(** C2 at the price 12.345: the checkout of [index.js] hands the adapter
    the amount 1234, the integer part of 1234.5, and not 1235. *)
Theorem checkout_of_12_345_charges_1234 (drv : Driver) (w : World) :
  exists out,
    Index.create_checkout_session drv (12345 # 1000) w
    = (out, {| db := db w; log := (log w ++ [Ev_paymentIntents_create 1234])%list |})
    /\ JS.parseInt ((12345 # 1000) * 100) = 1234%Z
    /\ JS.Math_round ((12345 # 1000) * 100) = 1235%Z.
Proof.
  unfold Index.create_checkout_session, bind.
  rewrite paymentIntents_create_run.
  destruct (paymentIntents_create drv _); eexists; repeat split.
Qed.

(** In positional notation [parseInt] drops the fraction. *)
Lemma parseInt_truncates (x : Q) :
  (1 # 1000000) <= x -> x < inject_Z (10 ^ 21) ->
  JS.parseInt x = Qfloor x.
Proof.
  intros Hlo Hhi.
  assert (Hpos : 0 <= x) by (eapply Qle_trans; [ | exact Hlo ]; discriminate).
  pose proof (Qabs_pos x Hpos) as Habs.
  unfold JS.parseInt.
  destruct (Qeq_bool (Qabs x) 0) eqn:E0.
  { apply Qeq_bool_iff in E0. rewrite Habs in E0. rewrite E0 in Hlo.
    now destruct Hlo. }
  destruct (Qle_bool (inject_Z (10 ^ 21)) (Qabs x)) eqn:E1.
  { apply Qle_bool_iff in E1. rewrite Habs in E1.
    exfalso. eapply Qlt_irrefl, Qlt_le_trans; eassumption. }
  destruct (Qle_bool (1 # 1000000) (Qabs x)) eqn:E2.
  - destruct x as [ n d ]. cbn [Qnum Qden Qfloor].
    apply Z.quot_div_nonneg; [ | reflexivity ].
    unfold Qle in Hpos. cbn in Hpos. lia.
  - exfalso. rewrite <- Bool.not_true_iff_false in E2. apply E2.
    apply Qle_bool_iff. now rewrite Habs.
Qed.

(** The checkout of [index.js] charges the integer part of the amount in
    cents. *)
Lemma checkout_truncates (drv : Driver) (price_ : Q) (w : World) :
  (1 # 1000000) <= price_ * 100 -> price_ * 100 < inject_Z (10 ^ 21) ->
  exists out,
    Index.create_checkout_session drv price_ w
    = (out, {| db := db w;
               log := (log w ++ [Ev_paymentIntents_create (Qfloor (price_ * 100))])%list |}).
Proof.
  intros Hlo Hhi. unfold Index.create_checkout_session, bind.
  rewrite paymentIntents_create_run, (parseInt_truncates _ Hlo Hhi).
  destruct (paymentIntents_create drv _); eexists; reflexivity.
Qed.

(** ** The statements at the example deployment *)

(** The order of the example lists three identifiers that convert. *)
Lemma order_is_well_formed :
  well_formed Example.driver Example.order [1; 2; 9]%N.
Proof.
  eexists. split; [ reflexivity | ]. split; [ discriminate | ].
  repeat constructor.
Defined.

(** C1 at a request without [cartIds]. *)
Lemma settle_refuses_invalid_cartIds_witness :
  missing_empty_or_not_a_list
    (cartIds (req_body (Example.anonymous Example.order_no_cartIds)))
  /\ Index.post_payments Example.driver no_faults
       (Example.anonymous Example.order_no_cartIds) Example.world
     = (Return {| status := 400;
                  body := Body_error "Invalid cartIds: cartIds must be a non-empty array" |},
        Example.world).
Proof.
  assert (H : missing_empty_or_not_a_list
                (cartIds (req_body (Example.anonymous Example.order_no_cartIds))))
    by (left; reflexivity).
  split; [ exact H | ].
  exact (settle_refuses_invalid_cartIds Example.driver no_faults
           (Example.anonymous Example.order_no_cartIds) Example.world H).
Defined.

(** C7 at the order of the example: the entries 1 and 2 go, the entry 3
    stays, the identifier 9 matches nothing. *)
Lemma settle_removes_listed_cart_entries_witness :
  well_formed Example.driver Example.order [1; 2; 9]%N
  /\ exists paymentResult deleteResult w',
      Index.post_payments Example.driver no_faults
        (Example.anonymous Example.order) Example.world
      = (Return {| status := 200; body := Body_payment paymentResult deleteResult |}, w')
      /\ carts (db w') = [Example.cart_3]
      /\ deletedCount deleteResult = 2%nat
      /\ payments (db w') = [{| payment_id := insertedId paymentResult;
                                payment_doc := Example.order |}].
Proof.
  split; [ exact order_is_well_formed | ].
  destruct (settle_removes_listed_cart_entries Example.driver no_faults
              (Example.anonymous Example.order) [1; 2; 9]%N Example.world
              order_is_well_formed eq_refl eq_refl)
    as (paymentResult & deleteResult & w' & Hrun & _ & _ & Hpayments & _).
  exists paymentResult, deleteResult, w'.
  split; [ exact Hrun | ].
  vm_compute in Hrun. injection Hrun as <- <- <-. repeat split.
Defined.

(** C8 at the order of the example, settled twice. *)
Lemma settle_is_not_idempotent_witness :
  well_formed Example.driver Example.order [1; 2; 9]%N
  /\ exists r1 d1 w1 r2 d2 w2,
      Index.post_payments Example.driver no_faults
        (Example.anonymous Example.order) Example.world
      = (Return {| status := 200; body := Body_payment r1 d1 |}, w1)
      /\ Index.post_payments Example.driver no_faults
           (Example.anonymous Example.order) w1
         = (Return {| status := 200; body := Body_payment r2 d2 |}, w2)
      /\ payments (db w2)
         = [{| payment_id := insertedId r1; payment_doc := Example.order |};
            {| payment_id := insertedId r2; payment_doc := Example.order |}]
      /\ insertedId r1 <> insertedId r2
      /\ deletedCount d1 = 2%nat
      /\ deletedCount d2 = 0%nat.
Proof.
  split; [ exact order_is_well_formed | ].
  destruct (settle_is_not_idempotent Example.driver no_faults
              (Example.anonymous Example.order) [1; 2; 9]%N Example.world
              order_is_well_formed eq_refl eq_refl)
    as (r1 & d1 & w1 & r2 & d2 & w2 & Hrun1 & Hrun2 & Hpayments & Hids & Hcount & _).
  exists r1, d1, w1, r2, d2, w2.
  split; [ exact Hrun1 | ]. split; [ exact Hrun2 | ].
  split; [ exact Hpayments | ]. split; [ exact Hids | ].
  split; [ | exact Hcount ].
  vm_compute in Hrun1. now injection Hrun1 as _ <- _.
Defined.


(** C6 at the order of the example, the store rejecting the delete. *)
Lemma settle_inserts_before_it_deletes_witness :
  exists r w',
    Index.post_payments Example.driver Example.delete_fails
      (Example.anonymous Example.order) Example.world
    = (Return r, w')
    /\ log w' = [Ev_insertOne Example.order true;
                 Ev_deleteMany [1; 2; 9]%N false]
    /\ status r = 500%nat
    /\ payments (db w') = [{| payment_id := 1%N; payment_doc := Example.order |}]
    /\ carts (db w') = [Example.cart_1; Example.cart_2; Example.cart_3].
Proof.
  destruct (settle_inserts_before_it_deletes Example.driver Example.delete_fails
              (Example.anonymous Example.order) Example.world)
    as (r & w' & calls & Hrun & Hlog & _ & _ & Hdelete).
  exists r, w'. split; [ exact Hrun | ].
  assert (Hcalls : calls = [Ev_insertOne Example.order true;
                            Ev_deleteMany [1; 2; 9]%N false]).
  { vm_compute in Hrun. injection Hrun as _ <-. exact (eq_sym Hlog). }
  split; [ now rewrite Hlog, Hcalls | ].
  apply (Hdelete [1; 2; 9]%N). rewrite Hcalls. right. now left.
Defined.

(** A rejected insert at the example deployment: nothing is stored, nothing
    is deleted. *)
Lemma settle_with_a_rejected_insert :
  Index.post_payments Example.driver Example.insert_fails
    (Example.anonymous Example.order) Example.world
  = (Return failure_500,
     {| db := Example.database; log := [Ev_insertOne Example.order false] |}).
Proof. reflexivity. Qed.

(** The reporting routes at the example deployment: no header, the token
    of a guest, the token of the administrator. *)
Lemma admin_stats_at_the_example :
  (exists r, Index.get_admin_stats Example.driver (Example.anonymous tt) Example.world
             = (Return r, Example.world) /\ status r = 401%nat)
  /\ (exists r, Index.get_admin_stats Example.driver
                  (Example.bearer Example.guest_token tt) Example.world
                = (Return r, Example.world) /\ status r = 403%nat)
  /\ (exists r, Index.get_admin_stats Example.driver
                  (Example.bearer Example.admin_token tt) Example.world
                = (Return r, Example.world) /\ status r = 200%nat)
  /\ (exists r w', Index.post_payments Example.driver no_faults
                     (Example.anonymous Example.order) Example.world
                   = (Return r, w') /\ status r = 200%nat).
Proof.
  split; [ | split; [ | split ] ].
  1-3: eexists; (split; [ cbv; reflexivity | reflexivity ]).
  do 2 eexists. split; [ cbv; reflexivity | reflexivity ].
Qed.


(** ** The sibling revisions of the settlement *)

(** The revision with [Math.round] refuses the same requests, before any
    driver call. *)
Lemma sibling_settle_refuses_invalid_cartIds
  (drv : Driver) (flt : Faults) (payment : Payment) (w : World) :
  missing_empty_or_not_a_list (cartIds payment) ->
  Part000.payments_handler drv flt payment w
  = (Return {| status := 400;
               body := Body_error "Invalid cartIds: must be a non-empty array" |},
     w).
Proof.
  intros H. apply invalid_cartIds_spec in H.
  unfold Part000.payments_handler. unfold Index.invalid_cartIds in H.
  destruct (cartIds payment) as [ | | b | q | s | xs | fs ]; try reflexivity.
  cbn in H |- *. now rewrite H.
Qed.

(** The revision without the guard stores the payment of a request that
    has no [cartIds], then throws; no response is sent. *)
Lemma unguarded_settle_stores_the_payment :
  Part001.payments_handler Example.driver no_faults Example.order_no_cartIds
    Example.world
  = (Throw TypeError, inserted Example.order_no_cartIds Example.world).
Proof. reflexivity. Qed.

(** * Further properties of the routes *)

(** ** What a settlement leaves alone *)

Lemma mapM_convert_all (drv : Driver) (xs : list JS.value) (w : World) :
  mapM (fun id => new_ObjectId drv (JS.Str (JS_String drv id))) xs w
  = (convert_all drv xs, w).
Proof.
  induction xs as [ | x xs IH ].
  - reflexivity.
  - rewrite mapM_cons, new_ObjectId_run. cbn [convert_all]. unfold convert.
    destruct (ObjectId_new drv (JS.Str (JS_String drv x))); [ | reflexivity ].
    rewrite IH. now destruct (convert_all drv xs).
Qed.

(** X1: A settlement never touches the menu collections and the users, never
    changes or removes a stored payment record (it adds at most one, the
    body of the request, under an identifier that no record has), and never
    adds a cart entry. *)
Theorem settle_frame
  (drv : Driver) (flt : Faults) (req : Request Payment) (w : World) :
  exists r w',
    Index.post_payments drv flt req w = (Return r, w')
    /\ menus (db w') = menus (db w)
    /\ menu (db w') = menu (db w)
    /\ users (db w') = users (db w)
    /\ (payments (db w') = payments (db w)
        \/ exists id,
            ~ In id (map payment_id (payments (db w)))
            /\ payments (db w') =
                 (payments (db w) ++ [{| payment_id := id;
                                         payment_doc := req_body req |}])%list)
    /\ (forall c, In c (carts (db w')) -> In c (carts (db w))).
Proof.
  unfold Index.post_payments.
  destruct (settle_runs drv flt (req_body req) w);
    do 2 eexists; (split; [ reflexivity | ]); cbn;
    repeat (split; [ reflexivity | ]).
  - split; [ now left | tauto ].
  - split; [ now left | tauto ].
  - split; [ | tauto ]. right. eexists. split; [ apply fresh_ObjectId_is_fresh | reflexivity ].
  - split; [ | tauto ]. right. eexists. split; [ apply fresh_ObjectId_is_fresh | reflexivity ].
  - split.
    + right. eexists. split; [ apply fresh_ObjectId_is_fresh | reflexivity ].
    + intros c Hc. now apply filter_In in Hc.
Qed.

(** The settlement of [index.js], path by path. *)
Lemma payments_handler_run (drv : Driver) (flt : Faults) (payment : Payment)
  (w : World) :
  Index.payments_handler drv flt payment w =
    if Index.invalid_cartIds payment then
      (Return {| status := 400;
                 body := Body_error "Invalid cartIds: cartIds must be a non-empty array" |},
       w)
    else if insertOne_rejects flt then
      (Return failure_500,
       {| db := db w; log := (log w ++ [Ev_insertOne payment false])%list |})
    else
      match cartIds payment with
      | JS.Arr xs =>
          match convert_all drv xs with
          | Return ids =>
              if deleteMany_rejects flt then
                (Return failure_500,
                 {| db := db (inserted payment w);
                    log := (log w ++ [Ev_insertOne payment true;
                                      Ev_deleteMany ids false])%list |})
              else
                (Return
                   {| status := 200;
                      body :=
                        Body_payment
                          {| insert_acknowledged := true;
                             insertedId := fresh_ObjectId (payments (db w)) |}
                          {| delete_acknowledged := true;
                             deletedCount :=
                               List.length (filter (id_in ids) (carts (db w))) |} |},
                 {| db := set_carts (db (inserted payment w))
                            (filter (fun c => negb (id_in ids c)) (carts (db w)));
                    log := (log w ++ [Ev_insertOne payment true;
                                      Ev_deleteMany ids true])%list |})
          | Throw _ => (Return failure_500, inserted payment w)
          end
      | _ => (Return failure_500, inserted payment w)
      end.
Proof.
  unfold Index.payments_handler, try_catch.
  destruct (Index.invalid_cartIds payment); [ reflexivity | ].
  destruct (insertOne_rejects flt) eqn:Hins.
  - now rewrite (bind_throw _ _ _ _ _ (insertOne_rejected flt payment w Hins)).
  - rewrite (bind_return _ _ _ _ _ (insertOne_acknowledged flt payment w Hins)).
    destruct (cartIds payment) as [ | | b | q | s | xs | fs ]; try reflexivity.
    cbn [array_map].
    pose proof (mapM_convert_all drv xs (inserted payment w)) as Hmap.
    destruct (convert_all drv xs) as [ ids | e ].
    + rewrite (bind_return _ _ _ _ _ Hmap).
      destruct (deleteMany_rejects flt) eqn:Hdel.
      * rewrite (bind_throw _ _ _ _ _ (deleteMany_rejected flt ids _ Hdel)).
        cbn. now rewrite <- app_assoc.
      * rewrite (bind_return _ _ _ _ _ (deleteMany_acknowledged flt ids _ Hdel)).
        cbn. now rewrite <- app_assoc.
    + now rewrite (bind_throw _ _ _ _ _ Hmap).
Qed.

(** X3: What a settlement does to the cart, and the status it answers, depend
    on [cartIds] alone: not on the e-mail, the price or the menu items of
    the request.  No entry is kept because it belongs to another user. *)
Theorem settle_reads_cartIds_alone
  (drv : Driver) (flt : Faults) (payment other : Payment) (w : World) :
  cartIds payment = cartIds other ->
  exists r r' w1 w2,
    Index.payments_handler drv flt payment w = (Return r, w1)
    /\ Index.payments_handler drv flt other w = (Return r', w2)
    /\ status r = status r'
    /\ carts (db w1) = carts (db w2).
Proof.
  intros Hsame. rewrite !payments_handler_run.
  unfold Index.invalid_cartIds. rewrite <- Hsame.
  destruct (negb (JS.truthy (cartIds payment))
            || negb (JS.isArray (cartIds payment))
            || JS.length_is_zero (cartIds payment)).
  { do 4 eexists. repeat split. }
  destruct (insertOne_rejects flt).
  { do 4 eexists. repeat split. }
  destruct (cartIds payment) as [ | | b | q | s | xs | fs ];
    try solve [ do 4 eexists; repeat split ].
  destruct (convert_all drv xs) as [ ids | e ];
    [ destruct (deleteMany_rejects flt) | ]; do 4 eexists; repeat split.
Qed.

(** X4: Once the store has taken the insert of a settlement, the revenue of
    [GET /admin-stats] is the revenue before plus the price of the request,
    added as binary64 numbers, whatever the settlement then answers: 200, or
    500 because an identifier does not convert or the delete is rejected. *)
Theorem settle_adds_its_price_to_the_revenue
  (drv : Driver) (flt : Faults) (req : Request Payment)
  (x : JS.value) (xs : list JS.value) (w : World) :
  cartIds (req_body req) = JS.Arr (x :: xs) ->
  insertOne_rejects flt = false ->
  exists r w' rev rev' o u p o' u' p',
    Index.post_payments drv flt req w = (Return r, w')
    /\ Index.admin_stats drv w =
         (Return {| status := 200; body := Body_stats rev o u p |}, w)
    /\ Index.admin_stats drv w' =
         (Return {| status := 200; body := Body_stats rev' o' u' p' |}, w')
    /\ rev' = PrimFloat.add rev (price (req_body req)).
Proof.
  intros Hids Hins.
  assert (exists r w',
             Index.post_payments drv flt req w = (Return r, w')
             /\ payments (db w') = payments (db (inserted (req_body req) w)))
    as (r & w' & Hrun & Hpayments).
  { unfold Index.post_payments. rewrite payments_handler_run.
    unfold Index.invalid_cartIds. rewrite Hids, Hins. cbn [JS.truthy JS.isArray
      JS.length_is_zero List.length Nat.eqb negb orb].
    destruct (convert_all drv (x :: xs)) as [ ids | e ];
      [ destruct (deleteMany_rejects flt) | ]; do 2 eexists; split; reflexivity. }
  destruct (admin_stats_run drv w) as (rev & o & u & p & Hbefore & Hrev).
  destruct (admin_stats_run drv w') as (rev' & o' & u' & p' & Hafter & Hrev').
  exists r, w', rev, rev', o, u, p, o', u', p'.
  split; [ exact Hrun | ]. split; [ exact Hbefore | ]. split; [ exact Hafter | ].
  rewrite Hrev', Hrev, Hpayments. cbn [inserted db set_payments payments].
  now rewrite fold_left_app.
Qed.

(** ** The revisions of the settlement side by side *)

Lemma mapM_text_identifiers (drv : Driver) (ss : list string) (w : World) :
  mapM (fun id => new_ObjectId drv id) (map JS.Str ss) w
  = mapM (fun id => new_ObjectId drv (JS.Str (JS_String drv id))) (map JS.Str ss) w.
Proof.
  revert w. induction ss as [ | s ss IH ]; intros w; [ reflexivity | ].
  cbn [map]. rewrite !mapM_cons. cbn [JS_String JS.String_].
  destruct (new_ObjectId drv (JS.Str s) w) as [ [ oid | e ] w' ]; [ | reflexivity ].
  now rewrite IH.
Qed.

(** X5: When every element of [cartIds] is a text, the settlement of
    [index.js], which converts [String(id)], and that of the revision that
    converts [id] itself answer the same status and leave the same world. *)
Theorem revisions_agree_on_text_identifiers
  (drv : Driver) (flt : Faults) (payment : Payment) (ss : list string)
  (w : World) :
  cartIds payment = JS.Arr (map JS.Str ss) ->
  exists r r' w',
    Index.payments_handler drv flt payment w = (Return r, w')
    /\ Part000.payments_handler drv flt payment w = (Return r', w')
    /\ status r = status r'.
Proof.
  intros Hids.
  unfold Index.payments_handler, Part000.payments_handler, Index.invalid_cartIds,
    try_catch.
  rewrite Hids. cbn [JS.truthy JS.isArray negb orb array_map].
  destruct (JS.length_is_zero (JS.Arr (map JS.Str ss))).
  { do 3 eexists. split; [ reflexivity | split; reflexivity ]. }
  destruct (insertOne_rejects flt) eqn:Hins.
  { rewrite !(bind_throw _ _ _ _ _ (insertOne_rejected flt payment w Hins)).
    do 3 eexists. split; [ reflexivity | split; reflexivity ]. }
  rewrite !(bind_return _ _ _ _ _ (insertOne_acknowledged flt payment w Hins)).
  pose proof (mapM_convert_all drv (map JS.Str ss) (inserted payment w)) as Hmap.
  pose proof Hmap as Hmap'. rewrite <- mapM_text_identifiers in Hmap'.
  destruct (convert_all drv (map JS.Str ss)) as [ ids | e ].
  2: { rewrite (bind_throw _ _ _ _ _ Hmap), (bind_throw _ _ _ _ _ Hmap').
       do 3 eexists. split; [ reflexivity | split; reflexivity ]. }
  rewrite (bind_return _ _ _ _ _ Hmap), (bind_return _ _ _ _ _ Hmap').
  destruct (deleteMany_rejects flt) eqn:Hdel.
  - rewrite !(bind_throw _ _ _ _ _ (deleteMany_rejected flt ids _ Hdel)).
    do 3 eexists. split; [ reflexivity | split; reflexivity ].
  - rewrite !(bind_return _ _ _ _ _ (deleteMany_acknowledged flt ids _ Hdel)).
    do 3 eexists. split; [ reflexivity | split; reflexivity ].
Qed.

(** X6: The revision without guard and without [try]: when [cartIds] is not a
    list and the store takes the insert, the payment record is stored, the
    handler throws a [TypeError] and no response is sent. *)
Theorem unguarded_settle_of_no_list
  (drv : Driver) (flt : Faults) (payment : Payment) (w : World) :
  (forall xs, cartIds payment <> JS.Arr xs) ->
  insertOne_rejects flt = false ->
  Part001.payments_handler drv flt payment w
  = (Throw TypeError, inserted payment w).
Proof.
  intros Hnot Hins. unfold Part001.payments_handler.
  rewrite (bind_return _ _ _ _ _ (insertOne_acknowledged flt payment w Hins)).
  destruct (cartIds payment) as [ | | b | q | s | xs | fs ]; try reflexivity.
  now destruct (Hnot xs).
Qed.

(** X7: The same revision takes an empty [cartIds]: the payment record is
    stored, no cart entry is removed and the answer is 200 with
    [deletedCount] 0. *)
Theorem unguarded_settle_of_the_empty_list
  (drv : Driver) (payment : Payment) (w : World) :
  cartIds payment = JS.Arr [] ->
  exists paymentResult w',
    Part001.payments_handler drv no_faults payment w
    = (Return {| status := 200;
                 body := Body_payment paymentResult
                           {| delete_acknowledged := true; deletedCount := 0 |} |},
       w')
    /\ payments (db w') =
         (payments (db w) ++ [{| payment_id := insertedId paymentResult;
                                 payment_doc := payment |}])%list
    /\ carts (db w') = carts (db w).
Proof.
  intros Hids. unfold Part001.payments_handler.
  rewrite (bind_return _ _ _ _ _ (insertOne_acknowledged no_faults payment w eq_refl)).
  rewrite Hids. cbn [array_map mapM].
  unfold bind at 1. cbn [ret].
  rewrite (bind_return _ _ _ _ _ (deleteMany_acknowledged no_faults [] _ eq_refl)).
  do 2 eexists. split; [ | split ].
  - cbn. rewrite filter_none by reflexivity. reflexivity.
  - reflexivity.
  - cbn. apply filter_all. reflexivity.
Qed.

(** ** More on the breakdown by category *)

Lemma pipeline_of_rows (from : list MenuItem) (docs : list StoredPayment) :
  order_stats_pipeline from docs
  = Aggregate.project (group_rows (joined_rows from docs) []).
Proof.
  unfold order_stats_pipeline, Aggregate.group.
  now rewrite group_of_rows, unwind_lookup_rows.
Qed.

Lemma order_stats_run (w : World) :
  Index.order_stats w =
    (Return {| status := 200;
               body := Body_order_stats
                         (order_stats_pipeline (menu (db w)) (payments (db w))) |},
     w).
Proof. reflexivity. Qed.

(** X8: The answer of [GET /order-stats] names no category twice and no
    category without a sale: every quantity is at least 1. *)
Theorem order_stats_has_no_empty_category (w : World) :
  exists result,
    Index.order_stats w =
      (Return {| status := 200; body := Body_order_stats result |}, w)
    /\ NoDup (map category result)
    /\ forall s, In s result -> (1 <= quantity s)%nat.
Proof.
  rewrite order_stats_run. eexists. split; [ reflexivity | ].
  destruct (pipeline_summarises (menu (db w)) (payments (db w)))
    as (Hnd & Hkeys & Hvals).
  split; [ assumption | ].
  intros s Hs. destruct (Hvals s Hs) as [ -> _ ].
  destruct (proj1 (Hkeys (category s)) (in_map category _ s Hs)) as (m & Hm & Hc).
  unfold quantity_of.
  assert (Hin : In m (filter (in_category (category s))
                             (joined_rows (menu (db w)) (payments (db w))))).
  { apply filter_In. split; [ assumption | now apply String.eqb_eq ]. }
  destruct (filter _ _); [ destruct Hin | cbn; lia ].
Qed.




Lemma joined_rows_app (from : list MenuItem) (docs docs' : list StoredPayment) :
  joined_rows from (docs ++ docs') = (joined_rows from docs ++ joined_rows from docs')%list.
Proof. unfold joined_rows. apply flat_map_app. Qed.

(** X10: A payment record none of whose menu items is in the joined collection
    does not change the answer of [GET /order-stats], and does not make it
    fail. *)
Theorem order_stats_skips_an_unmatched_payment
  (w w' : World) (doc : StoredPayment) :
  menu (db w') = menu (db w) ->
  payments (db w') = (payments (db w) ++ [doc])%list ->
  (forall m, In m (menu (db w)) ->
             ~ In (menu_id m) (menuItems (payment_doc doc))) ->
  exists result,
    Index.order_stats w =
      (Return {| status := 200; body := Body_order_stats result |}, w)
    /\ Index.order_stats w' =
      (Return {| status := 200; body := Body_order_stats result |}, w').
Proof.
  intros Hmenu Hpayments Hnone. rewrite !order_stats_run.
  eexists. split; [ reflexivity | ].
  rewrite Hmenu, Hpayments, !pipeline_of_rows, joined_rows_app.
  replace (joined_rows (menu (db w)) [doc]) with (@nil MenuItem).
  - now rewrite app_nil_r.
  - unfold joined_rows. cbn. rewrite app_nil_r. symmetry.
    apply filter_none. intros m Hm. unfold Aggregate.references.
    destruct (existsb _ _) eqn:E; [ | reflexivity ].
    apply existsb_eqb_In in E. now destruct (Hnone m Hm).
Qed.

(** ** The reporting routes write nothing *)

Lemma verifyToken_run {B : Type} (drv : Driver) (req : Request B)
  (next : Decoded -> M Response) (w : World) :
  (exists r, Index.verifyToken drv req next w = (Return r, w)
             /\ status r = 401%nat)
  \/ (exists header decoded,
        authorization req = Some header
        /\ jwt_verify drv (nth_error (JS.split_space header) 1) = Some decoded
        /\ Index.verifyToken drv req next w = next decoded w).
Proof.
  unfold Index.verifyToken.
  destruct (authorization req) as [ [ | c header ] | ].
  - left. eexists. split; reflexivity.
  - destruct (jwt_verify drv _) as [ decoded | ] eqn:Hjwt.
    + right. now exists (String c header), decoded.
    + left. eexists. split; reflexivity.
  - left. eexists. split; reflexivity.
Qed.

Lemma verifyAdmin_run (decoded : Decoded) (next : M Response) (w : World) :
  (exists r, Index.verifyAdmin decoded next w = (Return r, w)
             /\ status r = 403%nat)
  \/ Index.verifyAdmin decoded next w = next w.
Proof.
  unfold Index.verifyAdmin, bind, get_db.
  destruct (Index.role_is_not_admin _).
  - left. eexists. split; reflexivity.
  - now right.
Qed.

(** X11: [GET /admin-stats] and [GET /order-stats] leave the world as it was,
    whoever asks and whatever they answer. *)
Theorem reporting_routes_write_nothing
  {B : Type} (drv : Driver) (req : Request B) (w : World) :
  snd (Index.get_admin_stats drv req w) = w
  /\ snd (Index.get_order_stats drv req w) = w.
Proof.
  unfold Index.get_admin_stats, Index.get_order_stats. split.
  - destruct (verifyToken_run drv req
                (fun decoded => Index.verifyAdmin decoded (Index.admin_stats drv)) w)
      as [ (r & -> & _) | (header & decoded & _ & _ & ->) ]; [ reflexivity | ].
    destruct (verifyAdmin_run decoded (Index.admin_stats drv) w)
      as [ (r & -> & _) | -> ]; [ reflexivity | ].
    destruct (admin_stats_run drv w) as (rev & o & u & p & -> & _). reflexivity.
  - destruct (verifyToken_run drv req
                (fun decoded => Index.verifyAdmin decoded Index.order_stats) w)
      as [ (r & -> & _) | (header & decoded & _ & _ & ->) ]; [ reflexivity | ].
    destruct (verifyAdmin_run decoded Index.order_stats w)
      as [ (r & -> & _) | -> ]; [ reflexivity | ].
    reflexivity.
Qed.

(** ** More on the checkout *)


(** ** The token and the role *)

Lemma append_empty (s : string) : (s ++ "")%string = s.
Proof. induction s as [ | c s IH ]; cbn; [ reflexivity | now rewrite IH ]. Qed.

Lemma append_append (s1 s2 s3 : string) :
  ((s1 ++ s2) ++ s3)%string = (s1 ++ (s2 ++ s3))%string.
Proof. induction s1 as [ | c s1 IH ]; cbn; [ reflexivity | now rewrite IH ]. Qed.

Lemma split_word (word : string) (rest : string) (cur : string) :
  has_space word = false ->
  JS.split_space_aux (word ++ rest) cur = JS.split_space_aux rest (cur ++ word).
Proof.
  revert cur. induction word as [ | c word IH ]; intros cur Hword; cbn.
  - now rewrite append_empty.
  - cbn in Hword. apply orb_false_iff in Hword as [ Hc Hword ].
    rewrite Hc, IH by assumption.
    f_equal. now rewrite append_append.
Qed.

Lemma split_last_word (word : string) (cur : string) :
  has_space word = false ->
  JS.split_space_aux word cur = [cur ++ word].
Proof.
  intros Hword. rewrite <- (append_empty word) at 1.
  now rewrite split_word.
Qed.

(** X16: Of a header made of two words, [verifyToken] hands [jwt.verify] the
    second, whatever the first: the scheme is not looked at.  The request
    goes on when the token is accepted and is answered 401 when it is not. *)
Theorem verifyToken_reads_the_second_word
  {B : Type} (drv : Driver) (scheme token : string) (b : B)
  (next : Decoded -> M Response) (w : World) :
  has_space scheme = false -> has_space token = false ->
  Index.verifyToken drv
    {| authorization := Some (scheme ++ " " ++ token); req_body := b |} next w
  = match jwt_verify drv (Some token) with
    | Some decoded => next decoded w
    | None =>
        (Return {| status := 401; body := Body_message "Unauthorized access" |}, w)
    end.
Proof.
  intros Hscheme Htoken. unfold Index.verifyToken. cbn [authorization].
  assert (Hsplit : JS.split_space (scheme ++ " " ++ token) = [scheme; token]).
  { unfold JS.split_space. rewrite split_word by assumption. cbn.
    now rewrite split_last_word. }
  rewrite Hsplit. cbn [nth_error].
  destruct (scheme ++ " " ++ token) eqn:E.
  - destruct scheme; discriminate.
  - now destruct (jwt_verify drv (Some token)).
Qed.

(** X17: A header that is a token alone, with no scheme before it, is not read
    as a token: [jwt.verify] is given [undefined]. *)
Theorem verifyToken_of_a_bare_token
  {B : Type} (drv : Driver) (token : string) (b : B)
  (next : Decoded -> M Response) (w : World) :
  has_space token = false -> token <> "" ->
  Index.verifyToken drv {| authorization := Some token; req_body := b |} next w
  = match jwt_verify drv None with
    | Some decoded => next decoded w
    | None =>
        (Return {| status := 401; body := Body_message "Unauthorized access" |}, w)
    end.
Proof.
  intros Htoken Hne. unfold Index.verifyToken. cbn [authorization].
  unfold JS.split_space. rewrite split_last_word by assumption. cbn [nth_error].
  destruct token; [ now destruct Hne | ].
  now destruct (jwt_verify drv None).
Qed.

(** X18: [GET /users/admin/:email] tells a user whether he is an administrator
    exactly as [verifyAdmin] decides it: the answer is [true] when
    [verifyAdmin] lets the same token through and [false] when it answers
    403.  Asked about another e-mail than that of the token, the route
    answers 403 and reads nothing. *)
Theorem users_admin_agrees_with_verifyAdmin
  (decoded : Decoded) (next : M Response) (w : World) :
  (exists admin,
      IndexCrud.users_admin decoded (decoded_email decoded) w
      = (Return {| reply_status := 200; reply_body := Answer_bool admin |}, w)
      /\ Index.verifyAdmin decoded next w
         = if admin then next w
           else (Return {| status := 403;
                           body := Body_message "Forbidden access" |}, w))
  /\ (forall email,
        email <> decoded_email decoded ->
        IndexCrud.users_admin decoded email w
        = (Return {| reply_status := 403;
                     reply_body := Answer_message "Forbidden access" |}, w)).
Proof.
  split.
  - unfold IndexCrud.users_admin, Index.verifyAdmin, Index.role_is_not_admin,
      usersCollection_findOne, bind, get_db, reply, respond, ret.
    rewrite String.eqb_refl. cbn [negb db].
    destruct (find _ (users (db w))) as [ u | ].
    + destruct (user_role u) as [ role | ].
      * exists (String.eqb role "admin"). split; [ reflexivity | ].
        now destruct (String.eqb role "admin").
      * now exists false.
    + now exists false.
  - intros email Hne. unfold IndexCrud.users_admin.
    apply String.eqb_neq in Hne. now rewrite Hne.
Qed.

(** ** The cart *)

Lemma fresh_cart_id_is_fresh (cs : list CartEntry) :
  ~ In (fresh_cart_id cs) (map cart_id cs).
Proof.
  assert (H : forall c, In c cs -> (cart_id c < fresh_cart_id cs)%N).
  { unfold fresh_cart_id. induction cs as [ | c0 cs IH ]; intros c Hc.
    - destruct Hc.
    - cbn [map fold_right]. destruct Hc as [ -> | Hc ]; [ lia | ].
      specialize (IH c Hc). lia. }
  intros Hin. apply in_map_iff in Hin as (c & Hid & Hc).
  specialize (H c Hc). lia.
Qed.

Lemma post_carts_run (item : CartItem) (w : World) :
  IndexCrud.post_carts false item w =
    (Return {| reply_status := 200;
               reply_body :=
                 Answer_insert {| insert_acknowledged := true;
                                  insertedId := fresh_cart_id (carts (db w)) |} |},
     {| db := set_carts (db w)
                (carts (db w) ++
                 [{| cart_id := fresh_cart_id (carts (db w));
                     cart_email := item_email item;
                     cart_menuId := item_menuId item;
                     cart_price := item_price item |}]);
        log := log w |}).
Proof. reflexivity. Qed.

Lemma get_carts_run (email : string) (w : World) :
  email <> "" ->
  IndexCrud.get_carts (Some email) w =
    (Return {| reply_status := 200;
               reply_body := Answer_carts (carts_of email (carts (db w))) |}, w).
Proof. intros Hne. destruct email; [ now destruct Hne | reflexivity ]. Qed.

(** X19: An item added with [POST /carts] is what [GET /carts] then shows its
    owner, after the entries he had, under an identifier that no entry had;
    what [GET /carts] shows another e-mail does not change. *)
Theorem post_carts_then_get_carts (item : CartItem) (email : string) (w : World) :
  email <> "" ->
  exists result w',
    IndexCrud.post_carts false item w
    = (Return {| reply_status := 200; reply_body := Answer_insert result |}, w')
    /\ ~ In (insertedId result) (map cart_id (carts (db w)))
    /\ IndexCrud.get_carts (Some email) w'
       = (Return
            {| reply_status := 200;
               reply_body :=
                 Answer_carts
                   (carts_of email (carts (db w)) ++
                    if String.eqb (item_email item) email
                    then [{| cart_id := insertedId result;
                             cart_email := item_email item;
                             cart_menuId := item_menuId item;
                             cart_price := item_price item |}]
                    else []) |},
          w').
Proof.
  intros Hne. rewrite post_carts_run. do 2 eexists.
  split; [ reflexivity | ]. split; [ apply fresh_cart_id_is_fresh | ].
  rewrite get_carts_run by assumption. cbn [db set_carts carts insertedId].
  unfold carts_of. rewrite filter_app. cbn [filter cart_email].
  reflexivity.
Qed.

(** X20: After a settlement that the store carries out, [GET /carts] shows an
    owner exactly the entries he had whose identifier the settlement did
    not list. *)
Theorem settle_then_get_carts
  (drv : Driver) (flt : Faults) (req : Request Payment) (ids : list ObjectId)
  (email : string) (w : World) :
  well_formed drv (req_body req) ids ->
  insertOne_rejects flt = false ->
  deleteMany_rejects flt = false ->
  email <> "" ->
  exists r w' result,
    Index.post_payments drv flt req w = (Return r, w')
    /\ status r = 200%nat
    /\ IndexCrud.get_carts (Some email) w'
       = (Return {| reply_status := 200; reply_body := Answer_carts result |}, w')
    /\ (forall c, In c result <->
                  In c (carts (db w)) /\ cart_email c = email
                  /\ ~ In (cart_id c) ids).
Proof.
  intros Hwf Hins Hdel Hne. unfold Index.post_payments.
  rewrite (settle_success drv flt (req_body req) ids w Hwf Hins Hdel).
  do 3 eexists. split; [ reflexivity | ]. split; [ reflexivity | ].
  rewrite get_carts_run by assumption. split; [ reflexivity | ].
  intros c. cbn [db set_carts carts]. unfold carts_of.
  rewrite !filter_In, String.eqb_eq, <- id_in_spec.
  destruct (id_in ids c); cbn; intuition congruence.
Qed.

Lemma remove_first_length {A : Type} (f : A -> bool) (l : list A) :
  ((if existsb f l then 1 else 0) + List.length (remove_first f l)
   = List.length l)%nat.
Proof.
  induction l as [ | x l IH ]; cbn; [ reflexivity | ].
  destruct (f x); cbn; [ reflexivity | ].
  destruct (existsb f l); cbn in *; lia.
Qed.

Lemma remove_first_In {A : Type} (f : A -> bool) (l : list A) (x : A) :
  In x (remove_first f l) -> In x l.
Proof.
  induction l as [ | y l IH ]; cbn; [ tauto | ].
  destruct (f y); cbn; tauto.
Qed.

Lemma remove_first_by_id (oid : ObjectId) (cs : list CartEntry) (c : CartEntry) :
  NoDup (map cart_id cs) ->
  In c (remove_first (has_id oid) cs) <-> In c cs /\ cart_id c <> oid.
Proof.
  induction cs as [ | c0 cs IH ]; cbn; intros Hnd; [ tauto | ].
  inversion Hnd as [ | ? ? Hnotin Hnd' ]; subst.
  unfold has_id at 1. destruct (N.eqb (cart_id c0) oid) eqn:E.
  - apply N.eqb_eq in E. split.
    + intros Hc. split; [ now right | ].
      intros Heq. apply Hnotin. rewrite E, <- Heq. now apply in_map.
    + intros [ [ <- | Hc ] Hneq ]; [ contradiction | assumption ].
  - apply N.eqb_neq in E. cbn. rewrite (IH Hnd'). split.
    + intros [ <- | [ Hc Hneq ] ]; [ split; [ now left | assumption ] | tauto ].
    + intros [ [ <- | Hc ] Hneq ]; [ now left | right; tauto ].
Qed.

Lemma delete_cart_run (drv : Driver) (id : string) (oid : ObjectId) (w : World) :
  ObjectId_new drv (JS.Str id) = Some oid ->
  IndexCrud.delete_cart drv false id w =
    (Return {| reply_status := 200;
               reply_body :=
                 Answer_delete
                   {| delete_acknowledged := true;
                      deletedCount :=
                        if existsb (has_id oid) (carts (db w)) then 1 else 0 |} |},
     {| db := set_carts (db w) (remove_first (has_id oid) (carts (db w)));
        log := log w |}).
Proof.
  intros Hid. unfold IndexCrud.delete_cart, bind.
  rewrite new_ObjectId_run, Hid. reflexivity.
Qed.

(** X21: [DELETE /carts/:id] with an identifier that converts, in a cart whose
    identifiers are distinct: the entries that remain are the former ones
    but the one of that identifier, [deletedCount] is the number of entries
    gone, 1 when the entry was there and 0 when it was not. *)
Theorem delete_cart_removes_the_entry
  (drv : Driver) (id : string) (oid : ObjectId) (w : World) :
  ObjectId_new drv (JS.Str id) = Some oid ->
  NoDup (map cart_id (carts (db w))) ->
  exists result w',
    IndexCrud.delete_cart drv false id w
    = (Return {| reply_status := 200; reply_body := Answer_delete result |}, w')
    /\ (forall c, In c (carts (db w')) <->
                  In c (carts (db w)) /\ cart_id c <> oid)
    /\ (deletedCount result + List.length (carts (db w'))
        = List.length (carts (db w)))%nat
    /\ (deletedCount result = 1%nat <-> In oid (map cart_id (carts (db w))))
    /\ (deletedCount result = 0%nat <-> ~ In oid (map cart_id (carts (db w)))).
Proof.
  intros Hid Hnd. rewrite (delete_cart_run drv id oid w Hid).
  do 2 eexists. split; [ reflexivity | ]. cbn [db set_carts carts deletedCount].
  split; [ intros c; now apply remove_first_by_id | ].
  split; [ apply remove_first_length | ].
  assert (Hex : existsb (has_id oid) (carts (db w)) = true
                <-> In oid (map cart_id (carts (db w)))).
  { rewrite existsb_exists, in_map_iff. unfold has_id.
    split; intros (c & H1 & H2).
    - apply N.eqb_eq in H2. now exists c.
    - exists c. split; [ assumption | now apply N.eqb_eq ]. }
  destruct (existsb (has_id oid) (carts (db w))).
  - split; [ tauto | ]. split; [ discriminate | ].
    intros H. exfalso. apply H. now apply Hex.
  - split.
    + split; [ discriminate | ]. intros H. apply Hex in H. discriminate.
    + split; [ | reflexivity ]. intros _ H. apply Hex in H. discriminate.
Qed.

(** X23: The two revisions of [DELETE /carts/:id]: whenever [index.js] answers,
    the revision with the [try] gives the same answer and the same world;
    when [index.js] throws, for an identifier that does not convert or a
    call that the store rejects, it sends no response and the cart is as it
    was, and the other revision answers 500. *)
Theorem delete_cart_revisions
  (drv : Driver) (rejected : bool) (id : string) (w : World) :
  match IndexCrud.delete_cart drv rejected id w with
  | (Return r, w') => Part000Crud.delete_cart drv rejected id w = (Return r, w')
  | (Throw e, w') =>
      w' = w
      /\ (ObjectId_new drv (JS.Str id) = None \/ rejected = true)
      /\ Part000Crud.delete_cart drv rejected id w
         = (Return {| reply_status := 500;
                      reply_body := Answer_error "Failed to delete cart item" |}, w)
  end.
Proof.
  unfold Part000Crud.delete_cart, IndexCrud.delete_cart, try_catch, bind.
  rewrite new_ObjectId_run.
  destruct (ObjectId_new drv (JS.Str id)) as [ oid | ].
  - unfold cartCollection_deleteOne, bind, get_db.
    destruct rejected; cbn; [ | reflexivity ].
    split; [ now destruct w | ]. split; [ now right | now destruct w ].
  - split; [ reflexivity | ]. split; [ now left | reflexivity ].
Qed.

Lemma filter_remove_first {A : Type} (f g : A -> bool) (l : list A) :
  (forall x, f x = true -> g x = false) ->
  filter g (remove_first f l) = filter g l.
Proof.
  intros H. induction l as [ | x l IH ]; cbn; [ reflexivity | ].
  destruct (f x) eqn:Hf; cbn.
  - now rewrite (H x Hf).
  - now rewrite IH.
Qed.

(** X24: An entry deleted on its own before the settlement that lists it is
    passed over: the cart the settlement leaves is the one it would have
    left without that delete. *)
Theorem delete_cart_then_settle
  (drv : Driver) (flt : Faults) (req : Request Payment) (ids : list ObjectId)
  (id : string) (oid : ObjectId) (w : World) :
  well_formed drv (req_body req) ids ->
  insertOne_rejects flt = false ->
  deleteMany_rejects flt = false ->
  ObjectId_new drv (JS.Str id) = Some oid ->
  In oid ids ->
  exists r0 w0 r1 w1 r2 w2,
    IndexCrud.delete_cart drv false id w = (Return r0, w0)
    /\ Index.post_payments drv flt req w0 = (Return r1, w1)
    /\ Index.post_payments drv flt req w = (Return r2, w2)
    /\ status r1 = 200%nat
    /\ carts (db w1) = carts (db w2).
Proof.
  intros Hwf Hins Hdel Hid Hin.
  rewrite (delete_cart_run drv id oid w Hid). unfold Index.post_payments.
  do 6 eexists. split; [ reflexivity | ].
  split; [ apply (settle_success drv flt (req_body req) ids _ Hwf Hins Hdel) | ].
  split; [ apply (settle_success drv flt (req_body req) ids w Hwf Hins Hdel) | ].
  split; [ reflexivity | ]. cbn.
  apply filter_remove_first. intros c Hc. unfold has_id in Hc.
  apply N.eqb_eq in Hc. apply negb_false_iff, id_in_spec. now rewrite Hc.
Qed.

(** ** The users *)

Lemma find_by_email_none (email : string) (us : list User) :
  find (fun u => String.eqb (user_email u) email) us = None
  <-> ~ In email (map user_email us).
Proof.
  induction us as [ | u us IH ]; cbn; [ tauto | ].
  destruct (String.eqb (user_email u) email) eqn:E.
  - apply String.eqb_eq in E. split; [ discriminate | ].
    intros H. destruct H. now left.
  - apply String.eqb_neq in E. rewrite IH. tauto.
Qed.

Lemma post_users_run (rejected : bool) (user : User) (w : World) :
  IndexCrud.post_users rejected user w =
    match find (fun u => String.eqb (user_email u) (user_email user))
               (users (db w)) with
    | Some _ =>
        (Return {| reply_status := 200;
                   reply_body := Answer_message "User already exists!" |}, w)
    | None =>
        if rejected then (Throw MongoError, w)
        else (Return {| reply_status := 200;
                        reply_body := Answer_insert_user true |},
              {| db := set_users (db w) (users (db w) ++ [user]);
                 log := log w |})
    end.
Proof.
  unfold IndexCrud.post_users, usersCollection_findOne, usersCollection_insertOne,
    bind, get_db, ret. cbn.
  destruct (find _ (users (db w))); [ reflexivity | ].
  now destruct rejected.
Qed.

(** X25: [POST /users] keeps the e-mails of the users distinct, whatever it is
    sent and whether or not the store rejects the insert. *)
Theorem post_users_keeps_emails_distinct
  (rejected : bool) (user : User) (w : World) :
  NoDup (map user_email (users (db w))) ->
  NoDup (map user_email (users (db (snd (IndexCrud.post_users rejected user w))))).
Proof.
  intros Hnd. rewrite post_users_run.
  destruct (find _ (users (db w))) eqn:Hfind; [ assumption | ].
  destruct rejected; [ assumption | ]. cbn.
  rewrite map_app. cbn. apply NoDup_app; [ assumption | | ].
  - repeat constructor. intros [].
  - intros e He [ <- | [] ]. now apply find_by_email_none in Hfind.
Qed.


(** X27: [POST /users] stores the body as it is sent, role included, and asks
    for no token: who registers an e-mail that no user has with the role
    ["admin"] is an administrator for [verifyAdmin] from then on. *)
Theorem post_users_stores_the_role
  (user : User) (decoded : Decoded) (next : M Response) (w : World) :
  ~ In (user_email user) (map user_email (users (db w))) ->
  user_role user = Some "admin" ->
  decoded_email decoded = user_email user ->
  exists w',
    IndexCrud.post_users false user w
    = (Return {| reply_status := 200; reply_body := Answer_insert_user true |}, w')
    /\ Index.verifyAdmin decoded next w' = next w'.
Proof.
  intros Hfresh Hrole Hemail. rewrite post_users_run.
  pose proof (proj2 (find_by_email_none (user_email user) (users (db w))) Hfresh)
    as Hnone.
  rewrite Hnone. eexists. split; [ reflexivity | ].
  unfold Index.verifyAdmin, bind, get_db. cbn [db set_users users].
  assert (Hfind : find (fun u => String.eqb (user_email u) (decoded_email decoded))
                       (users (db w) ++ [user]) = Some user).
  { rewrite Hemail. clear Hnone.
    induction (users (db w)) as [ | u us IH ]; cbn.
    - now rewrite String.eqb_refl.
    - cbn in Hfresh. destruct (String.eqb (user_email u) (user_email user)) eqn:E.
      + apply String.eqb_eq in E. tauto.
      + apply IH. tauto. }
  rewrite Hfind. unfold Index.role_is_not_admin. rewrite Hrole. reflexivity.
Qed.

(** ** These properties at the example deployment *)

Ltac distinct :=
  repeat (constructor; [ cbn; intuition discriminate | ]); constructor.

(** X3 at the example deployment. *)
Lemma settle_reads_cartIds_alone_witness :
  cartIds Example.order = cartIds Example.order_of_the_admin
  /\ exists r r' w1 w2,
      Index.payments_handler Example.driver no_faults Example.order Example.world
      = (Return r, w1)
      /\ Index.payments_handler Example.driver no_faults
           Example.order_of_the_admin Example.world
         = (Return r', w2)
      /\ status r = status r'
      /\ carts (db w1) = carts (db w2).
Proof.
  split; [ reflexivity | ].
  exact (settle_reads_cartIds_alone Example.driver no_faults Example.order
           Example.order_of_the_admin Example.world eq_refl).
Defined.

(** X4 at the example deployment. *)
Lemma settle_adds_its_price_to_the_revenue_witness :
  exists r w' rev rev' o u p o' u' p',
    Index.post_payments Example.driver Example.delete_fails
      (Example.anonymous Example.order) Example.world
    = (Return r, w')
    /\ Index.admin_stats Example.driver Example.world =
         (Return {| status := 200; body := Body_stats rev o u p |}, Example.world)
    /\ Index.admin_stats Example.driver w' =
         (Return {| status := 200; body := Body_stats rev' o' u' p' |}, w')
    /\ rev' = PrimFloat.add rev (price (req_body (Example.anonymous Example.order))).
Proof.
  exact (settle_adds_its_price_to_the_revenue Example.driver Example.delete_fails
           (Example.anonymous Example.order) _ _ Example.world eq_refl eq_refl).
Defined.

(** X5 at the example deployment. *)
Lemma revisions_agree_on_text_identifiers_witness :
  exists r r' w',
    Index.payments_handler Example.driver no_faults Example.order Example.world
    = (Return r, w')
    /\ Part000.payments_handler Example.driver no_faults Example.order Example.world
       = (Return r', w')
    /\ status r = status r'.
Proof.
  exact (revisions_agree_on_text_identifiers Example.driver no_faults Example.order
           ["000000000000000000000001"; "000000000000000000000002";
            "000000000000000000000009"] Example.world eq_refl).
Defined.

(** X6 at the example deployment. *)
Lemma unguarded_settle_of_no_list_witness :
  Part001.payments_handler Example.driver no_faults Example.order_no_cartIds
    Example.world
  = (Throw TypeError, inserted Example.order_no_cartIds Example.world).
Proof.
  apply unguarded_settle_of_no_list; [ discriminate | reflexivity ].
Defined.

(** X7 at the example deployment. *)
Lemma unguarded_settle_of_the_empty_list_witness :
  exists paymentResult w',
    Part001.payments_handler Example.driver no_faults Example.order_empty_list
      Example.world
    = (Return {| status := 200;
                 body := Body_payment paymentResult
                           {| delete_acknowledged := true; deletedCount := 0 |} |},
       w')
    /\ payments (db w') =
         (payments (db Example.world) ++
          [{| payment_id := insertedId paymentResult;
              payment_doc := Example.order_empty_list |}])%list
    /\ carts (db w') = carts (db Example.world).
Proof.
  exact (unguarded_settle_of_the_empty_list Example.driver Example.order_empty_list
           Example.world eq_refl).
Defined.

(** X10 at the example deployment. *)
Lemma order_stats_skips_an_unmatched_payment_witness :
  (forall m, In m (menu (db Example.world_catalog_in_menu)) ->
             ~ In (menu_id m) (menuItems (payment_doc Example.order_unknown_dish)))
  /\ exists result,
      Index.order_stats Example.world_catalog_in_menu =
        (Return {| status := 200; body := Body_order_stats result |},
         Example.world_catalog_in_menu)
      /\ Index.order_stats Example.world_with_unknown_dish =
        (Return {| status := 200; body := Body_order_stats result |},
         Example.world_with_unknown_dish).
Proof.
  assert (H : forall m, In m (menu (db Example.world_catalog_in_menu)) ->
                        ~ In (menu_id m)
                             (menuItems (payment_doc Example.order_unknown_dish))).
  { intros m [ <- | [ <- | [] ] ] [ H | [] ]; discriminate. }
  split; [ exact H | ].
  exact (order_stats_skips_an_unmatched_payment Example.world_catalog_in_menu
           Example.world_with_unknown_dish Example.order_unknown_dish
           eq_refl eq_refl H).
Defined.

(** X16 at the example deployment. *)
Lemma verifyToken_reads_the_second_word_witness :
  Index.verifyToken Example.driver
    {| authorization := Some ("Basic" ++ " " ++ Example.admin_token);
       req_body := tt |}
    (fun decoded => Index.verifyAdmin decoded Index.order_stats) Example.world
  = match jwt_verify Example.driver (Some Example.admin_token) with
    | Some decoded => Index.verifyAdmin decoded Index.order_stats Example.world
    | None =>
        (Return {| status := 401; body := Body_message "Unauthorized access" |},
         Example.world)
    end.
Proof.
  apply verifyToken_reads_the_second_word; reflexivity.
Defined.

(** X17 at the example deployment. *)
Lemma verifyToken_of_a_bare_token_witness :
  Index.verifyToken Example.driver
    {| authorization := Some Example.admin_token; req_body := tt |}
    (fun decoded => Index.verifyAdmin decoded Index.order_stats) Example.world
  = match jwt_verify Example.driver None with
    | Some decoded => Index.verifyAdmin decoded Index.order_stats Example.world
    | None =>
        (Return {| status := 401; body := Body_message "Unauthorized access" |},
         Example.world)
    end.
Proof.
  apply verifyToken_of_a_bare_token; [ reflexivity | discriminate ].
Defined.

(** X19 at the example deployment. *)
Lemma post_carts_then_get_carts_witness :
  exists result w',
    IndexCrud.post_carts false Example.item Example.world
    = (Return {| reply_status := 200; reply_body := Answer_insert result |}, w')
    /\ ~ In (insertedId result) (map cart_id (carts (db Example.world)))
    /\ IndexCrud.get_carts (Some "guest@bistro.example") w'
       = (Return
            {| reply_status := 200;
               reply_body :=
                 Answer_carts
                   (carts_of "guest@bistro.example" (carts (db Example.world)) ++
                    if String.eqb (item_email Example.item) "guest@bistro.example"
                    then [{| cart_id := insertedId result;
                             cart_email := item_email Example.item;
                             cart_menuId := item_menuId Example.item;
                             cart_price := item_price Example.item |}]
                    else []) |},
          w').
Proof.
  apply post_carts_then_get_carts. discriminate.
Defined.

(** X20 at the example deployment. *)
Lemma settle_then_get_carts_witness :
  exists r w' result,
    Index.post_payments Example.driver no_faults
      (Example.anonymous Example.order) Example.world
    = (Return r, w')
    /\ status r = 200%nat
    /\ IndexCrud.get_carts (Some "guest@bistro.example") w'
       = (Return {| reply_status := 200; reply_body := Answer_carts result |}, w')
    /\ (forall c, In c result <->
                  In c (carts (db Example.world))
                  /\ cart_email c = "guest@bistro.example"
                  /\ ~ In (cart_id c) [1; 2; 9]%N).
Proof.
  apply settle_then_get_carts;
    [ exact order_is_well_formed | reflexivity | reflexivity | discriminate ].
Defined.

(** X21 at the example deployment. *)
Lemma delete_cart_removes_the_entry_witness :
  exists result w',
    IndexCrud.delete_cart Example.driver false "000000000000000000000002"
      Example.world
    = (Return {| reply_status := 200; reply_body := Answer_delete result |}, w')
    /\ (forall c, In c (carts (db w')) <->
                  In c (carts (db Example.world)) /\ cart_id c <> 2%N)
    /\ (deletedCount result + List.length (carts (db w'))
        = List.length (carts (db Example.world)))%nat
    /\ (deletedCount result = 1%nat
        <-> In 2%N (map cart_id (carts (db Example.world))))
    /\ (deletedCount result = 0%nat
        <-> ~ In 2%N (map cart_id (carts (db Example.world)))).
Proof.
  apply delete_cart_removes_the_entry; [ reflexivity | distinct ].
Defined.

(** X24 at the example deployment. *)
Lemma delete_cart_then_settle_witness :
  exists r0 w0 r1 w1 r2 w2,
    IndexCrud.delete_cart Example.driver false "000000000000000000000002"
      Example.world
    = (Return r0, w0)
    /\ Index.post_payments Example.driver no_faults
         (Example.anonymous Example.order) w0
       = (Return r1, w1)
    /\ Index.post_payments Example.driver no_faults
         (Example.anonymous Example.order) Example.world
       = (Return r2, w2)
    /\ status r1 = 200%nat
    /\ carts (db w1) = carts (db w2).
Proof.
  apply (delete_cart_then_settle Example.driver no_faults
           (Example.anonymous Example.order) [1; 2; 9]%N
           "000000000000000000000002" 2%N Example.world);
    [ exact order_is_well_formed | reflexivity | reflexivity | reflexivity
    | right; now left ].
Defined.

(** X25 at the example deployment. *)
Lemma post_users_keeps_emails_distinct_witness :
  NoDup (map user_email
           (users (db (snd (IndexCrud.post_users false Example.newcomer
                              Example.world))))).
Proof.
  apply post_users_keeps_emails_distinct. distinct.
Defined.


(** X27 at the example deployment. *)
Lemma post_users_stores_the_role_witness :
  exists w',
    IndexCrud.post_users false Example.newcomer Example.world
    = (Return {| reply_status := 200; reply_body := Answer_insert_user true |}, w')
    /\ Index.verifyAdmin {| decoded_email := "newcomer@bistro.example" |}
         Index.order_stats w'
       = Index.order_stats w'.
Proof.
  apply post_users_stores_the_role; [ | reflexivity | reflexivity ].
  cbn. intuition discriminate.
Defined.
